(** * Login-System: credential hashing, lockout tracking and reset tokens

    A shallow embedding of the authentication subsystem of the Login-System
    desktop client (utils/auth.py, utils/login_helpers.py,
    utils/reset_helpers.py, utils/database.py and the two screens that drive
    them), together with the properties its specification states.

    Conventions of the embedding:
    - a Python [str] is the list of its Unicode code points ([pystr]);
      [bytes] is a list of numbers below 256;
    - a Python exception is a value of [exn]; a call that may raise returns a
      [result];
    - [time.time()] readings are exact rationals, [datetime] values are
      integers (microseconds), and both are passed in by the caller: the code
      under study never computes with a clock of its own;
    - draws from [secrets] are passed in as well, so that every statement
      quantifies over all of them. *)

From Stdlib Require Import ZArith NArith QArith Lia Lqa List String Ascii Bool.
From stdpp Require Import base option list gmap.
From Stdlib Require DecimalString.
Import ListNotations.

Local Open Scope N_scope.

(** ** Python values *)

Abbreviation pystr := (list N) (only parsing).
Abbreviation pybytes := (list N) (only parsing).

(** An ASCII literal as a Python string. *)
Definition py (s : string) : pystr :=
  List.map N_of_ascii (list_ascii_of_string s).

Inductive exn : Type :=
  | ValueError
  | UnicodeEncodeError
  | TypeError
  | AttributeError
  | DatabaseError.

Inductive result (A : Type) : Type :=
  | Ok (a : A)
  | Raise (e : exn).
Arguments Ok {A} a.
Arguments Raise {A} e.

Definition rbind {A B} (r : result A) (k : A -> result B) : result B :=
  match r with
  | Ok a => k a
  | Raise e => Raise e
  end.

(** ** str.split, tuple unpacking *)

(** [s.split(sep)] for a one-character separator: k occurrences of [sep]
    give k+1 fields. *)
Fixpoint str_split (sep : N) (s : pystr) : list pystr :=
  match s with
  | [] => [[]]
  | c :: s' =>
      if N.eqb c sep then [] :: str_split sep s'
      else match str_split sep s' with
           | [] => [[c]]
           | w :: ws => (c :: w) :: ws
           end
  end.

(** [a, b = l]: ValueError unless [l] has exactly two items. *)
Definition unpack2 {A} (l : list A) : result (A * A) :=
  match l with
  | [a; b] => Ok (a, b)
  | _ => Raise ValueError
  end.

Fixpoint str_eqb (a b : pystr) : bool :=
  match a, b with
  | [], [] => true
  | x :: a', y :: b' => N.eqb x y && str_eqb a' b'
  | _, _ => false
  end.

Fixpoint str_count (c : N) (s : pystr) : nat :=
  match s with
  | [] => 0%nat
  | x :: s' => ((if N.eqb x c then 1 else 0) + str_count c s')%nat
  end.

(** [c in s] for a one-character [c]. *)
Definition str_contains (c : N) (s : pystr) : bool :=
  existsb (N.eqb c) s.

(** ** str.encode() : UTF-8, errors='strict' *)

Definition is_surrogate (c : N) : bool := (0xD800 <=? c) && (c <=? 0xDFFF).

Definition utf8_char (c : N) : result pybytes :=
  if c <? 0x80 then Ok [c]
  else if c <? 0x800 then
    Ok [N.lor 0xC0 (N.shiftr c 6); N.lor 0x80 (N.land c 0x3F)]
  else if is_surrogate c then Raise UnicodeEncodeError
  else if c <? 0x10000 then
    Ok [N.lor 0xE0 (N.shiftr c 12);
        N.lor 0x80 (N.land (N.shiftr c 6) 0x3F);
        N.lor 0x80 (N.land c 0x3F)]
  else
    Ok [N.lor 0xF0 (N.shiftr c 18);
        N.lor 0x80 (N.land (N.shiftr c 12) 0x3F);
        N.lor 0x80 (N.land (N.shiftr c 6) 0x3F);
        N.lor 0x80 (N.land c 0x3F)].

Fixpoint str_encode (s : pystr) : result pybytes :=
  match s with
  | [] => Ok []
  | c :: s' =>
      rbind (utf8_char c) (fun bs =>
      rbind (str_encode s') (fun rest => Ok (bs ++ rest)))
  end.

(** A string [.encode()] accepts: no lone surrogate code point. *)
Definition encodable (s : pystr) : Prop :=
  Forall (fun c => is_surrogate c = false) s.

(** ** Hexadecimal text: bytes.hex(), hexdigest(), secrets.token_hex *)

Definition hex_alphabet : pystr := py "0123456789abcdef".

Definition hex_digit (n : N) : N :=
  nth (N.to_nat n) hex_alphabet 48.

Definition hex_of_bytes (bs : pybytes) : pystr :=
  flat_map (fun b => [hex_digit (b / 16); hex_digit (b mod 16)]) bs.

(** ** hashlib.sha256 (FIPS 180-4) *)

Module SHA256.

Definition w32 (x : N) : N := x mod 2 ^ 32.
Definition add32 (a b : N) : N := w32 (a + b).
Definition rotr (n x : N) : N :=
  N.lor (N.shiftr x n) (w32 (N.shiftl x (32 - n))).
Definition not32 (x : N) : N := N.lxor x 0xFFFFFFFF.

Definition Ch (x y z : N) : N :=
  N.lxor (N.land x y) (N.land (not32 x) z).
Definition Maj (x y z : N) : N :=
  N.lxor (N.lxor (N.land x y) (N.land x z)) (N.land y z).
Definition Sigma0 (x : N) : N :=
  N.lxor (N.lxor (rotr 2 x) (rotr 13 x)) (rotr 22 x).
Definition Sigma1 (x : N) : N :=
  N.lxor (N.lxor (rotr 6 x) (rotr 11 x)) (rotr 25 x).
Definition sigma0 (x : N) : N :=
  N.lxor (N.lxor (rotr 7 x) (rotr 18 x)) (N.shiftr x 3).
Definition sigma1 (x : N) : N :=
  N.lxor (N.lxor (rotr 17 x) (rotr 19 x)) (N.shiftr x 10).

(** The constants are fractional parts of roots of the first primes, kept
    on 32 bits: cube roots of the first sixty-four for the round constants,
    square roots of the first eight for the initial hash value. *)
Definition is_prime (p : N) : bool :=
  (2 <=? p)
  && forallb (fun d => negb (p mod N.of_nat d =? 0))
             (seq 2 (N.to_nat p - 2)).

Definition first_primes (count : nat) : list N :=
  firstn count (filter is_prime (List.map N.of_nat (seq 2 310))).

(** The integer cube root, found bit by bit from bit [b] downwards. *)
Fixpoint cube_root_from (b : nat) (x r : N) : N :=
  let r' := r + 2 ^ N.of_nat b in
  let r1 := if r' * r' * r' <=? x then r' else r in
  match b with
  | O => r1
  | S b' => cube_root_from b' x r1
  end.

Definition cube_root (x : N) : N := cube_root_from 40 x 0.

Definition K : list N :=
  Eval vm_compute in
    List.map (fun p => w32 (cube_root (p * 2 ^ 96))) (first_primes 64).

Definition H0 : list N :=
  Eval vm_compute in
    List.map (fun p => w32 (N.sqrt (p * 2 ^ 64))) (first_primes 8).

(** Big-endian encodings. *)
Fixpoint be_bytes (width : nat) (x : N) : pybytes :=
  match width with
  | O => []
  | S w => ((x / 256 ^ N.of_nat w) mod 256) :: be_bytes w x
  end.

Definition be_word (bs : pybytes) : N :=
  fold_left (fun acc b => acc * 256 + b) bs 0.

(** Message padding: 0x80, zeros up to 56 mod 64, then the bit length on
    eight bytes. *)
Definition pad (msg : pybytes) : pybytes :=
  let len := N.of_nat (length msg) in
  let zeros := N.to_nat ((64 + 55 - len mod 64) mod 64) in
  msg ++ [0x80] ++ repeat 0 zeros ++ be_bytes 8 (8 * len).

Fixpoint chunks (fuel size : nat) (l : list N) : list (list N) :=
  match fuel with
  | O => []
  | S fuel' =>
      match l with
      | [] => []
      | _ => firstn size l :: chunks fuel' size (skipn size l)
      end
  end.

Definition words_of_block (block : pybytes) : list N :=
  List.map be_word (chunks 16 4 block).

(** The message schedule as a sliding window of sixteen words. *)
Definition next_word (win : list N) : N :=
  add32 (add32 (add32 (sigma1 (nth 14 win 0)) (nth 9 win 0))
               (sigma0 (nth 1 win 0)))
        (nth 0 win 0).

Definition round (st : list N) (k w : N) : list N :=
  match st with
  | [a; b; c; d; e; f; g; h] =>
      let t1 := add32 (add32 (add32 (add32 h (Sigma1 e)) (Ch e f g)) k) w in
      let t2 := add32 (Sigma0 a) (Maj a b c) in
      [add32 t1 t2; a; b; c; add32 d t1; e; f; g]
  | _ => st
  end.

Fixpoint rounds (ks : list N) (win st : list N) : list N :=
  match ks with
  | [] => st
  | k :: ks' =>
      rounds ks' (tl win ++ [next_word win]) (round st k (hd 0 win))
  end.

Definition compress (h : list N) (block : pybytes) : list N :=
  let st := rounds K (words_of_block block) h in
  List.map (fun p => add32 (fst p) (snd p)) (combine h st).

Definition digest (msg : pybytes) : pybytes :=
  let p := pad msg in
  let h := fold_left compress (chunks (length p) 64 p) H0 in
  flat_map (be_bytes 4) h.

End SHA256.

(** [hashlib.sha256(data).hexdigest()] *)
Definition sha256_hexdigest (data : pybytes) : pystr :=
  hex_of_bytes (SHA256.digest data).

(** ** utils/auth.py *)

Definition dollar : N := 36.

(** [secrets.token_hex(nbytes)]: the hexadecimal text of the first [nbytes]
    bytes of [entropy], the byte stream of the operating system's random
    source; a negative count is refused. *)
Definition token_hex (entropy : pybytes) (nbytes : Z) : result pystr :=
  if (nbytes <? 0)%Z then Raise ValueError
  else Ok (hex_of_bytes (firstn (Z.to_nat nbytes) entropy)).

(** [hash_password(password)] *)
Definition hash_password (entropy : pybytes) (password : pystr)
    : result pystr :=
  rbind (token_hex entropy 16) (fun salt =>
  rbind (str_encode (salt ++ password)) (fun data =>
  let hashed := sha256_hexdigest data in
  Ok (salt ++ [dollar] ++ hashed))).

(** [verify_password(stored, password)]: only the unpacking of the split is
    inside the [try]; the [except ValueError] clause answers [False]. *)
Definition verify_password (stored password : pystr) : result bool :=
  match unpack2 (str_split dollar stored) with
  | Raise ValueError => Ok false
  | Raise e => Raise e
  | Ok (salt, stored_hash) =>
      rbind (str_encode (salt ++ password)) (fun data =>
      let computed_hash := sha256_hexdigest data in
      Ok (str_eqb computed_hash stored_hash))
  end.

(** [generate_reset_code(length)] of utils/auth.py, a namesake of the
    generator of utils/reset_helpers.py that no other module calls. *)
Definition auth_generate_reset_code (entropy : pybytes) (length : Z)
    : result pystr :=
  token_hex entropy (length / 2).

(** ** utils/login_helpers.py : LoginLockoutManager *)

(** [int(x)] on a float: truncation toward zero. *)
Definition py_int (x : Q) : Z := Z.quot (Qnum x) (Z.pos (Qden x)).

(** [a > b] on floats. *)
Definition Qgtb (a b : Q) : bool := negb (Qle_bool a b).

Record LoginLockoutManager : Type := {
  failed_attempts : gmap (list N) Z;   (* username -> int *)
  lockout_expiry : gmap (list N) Q     (* username -> timestamp *)
}.

Definition MAX_ATTEMPTS : Z := 3.
Definition LOCKOUT_DURATION : Q := 300.

(** [LoginLockoutManager()] *)
Definition new_manager : LoginLockoutManager :=
  {| failed_attempts := ∅; lockout_expiry := ∅ |}.

(** [increment_failed_attempts(username)]; [now] is what [time.time()]
    answers if the call reads the clock. The sum [now + LOCKOUT_DURATION]
    is the exact one; the float sum of the code is its rounding, which
    keeps the order of two sums. *)
Definition increment_failed_attempts (now : Q) (username : pystr)
    (self : LoginLockoutManager) : LoginLockoutManager :=
  let attempts := (default 0 (failed_attempts self !! username) + 1)%Z in
  let counted := <[username := attempts]> (failed_attempts self) in
  if (attempts >=? MAX_ATTEMPTS)%Z then
    {| failed_attempts := counted;
       lockout_expiry :=
         <[username := (now + LOCKOUT_DURATION)%Q]> (lockout_expiry self) |}
  else
    {| failed_attempts := counted; lockout_expiry := lockout_expiry self |}.

(** [clear_lockout(username)]: both [pop(username, None)]. *)
Definition clear_lockout (username : pystr)
    (self : LoginLockoutManager) : LoginLockoutManager :=
  {| failed_attempts := delete username (failed_attempts self);
     lockout_expiry := delete username (lockout_expiry self) |}.

(** [is_locked_out(username)]: the answer and the manager afterwards. *)
Definition is_locked_out (now : Q) (username : pystr)
    (self : LoginLockoutManager) : bool * LoginLockoutManager :=
  match lockout_expiry self !! username with
  | None => (false, self)
  | Some expiry =>
      if Qgtb now expiry then (false, clear_lockout username self)
      else (true, self)
  end.

(** [get_remaining_lockout_minutes(username)]; [not expiry] holds for [None]
    and for the float zero. *)
Definition get_remaining_lockout_minutes (now : Q) (username : pystr)
    (self : LoginLockoutManager) : Z :=
  match lockout_expiry self !! username with
  | None => 0%Z
  | Some expiry =>
      if Qeq_bool expiry 0 then 0%Z
      else Z.max 0 (py_int ((expiry - now) / 60)%Q)
  end.

(** The three states of the specification, read off the two dictionaries. *)
Definition Clear (username : pystr) (m : LoginLockoutManager) : Prop :=
  failed_attempts m !! username = None /\ lockout_expiry m !! username = None.

Definition LockedOut (username : pystr) (expiry : Q)
    (m : LoginLockoutManager) : Prop :=
  lockout_expiry m !! username = Some expiry.

(** [self.failed_attempts.get(username, 0)] *)
Definition attempts_of (username : pystr) (m : LoginLockoutManager) : Z :=
  default 0%Z (failed_attempts m !! username).

(** Calls on the tracker, each with the clock reading it sees. *)
Inductive tracker_call : Type :=
  | RecordFailure (username : pystr)
  | RecordSuccess (username : pystr)
  | IsLockedOut (username : pystr)
  | RemainingMinutes (username : pystr).

Definition run_call (now : Q) (c : tracker_call)
    (m : LoginLockoutManager) : LoginLockoutManager :=
  match c with
  | RecordFailure u => increment_failed_attempts now u m
  | RecordSuccess u => clear_lockout u m
  | IsLockedOut u => snd (is_locked_out now u m)
  | RemainingMinutes u => m
  end.

(** [reachable clock m]: [m] is what a fresh manager becomes after a history
    of calls whose clock readings never decrease, the last being [clock]. *)
Inductive reachable : Q -> LoginLockoutManager -> Prop :=
  | reach_new (t : Q) : reachable t new_manager
  | reach_call (t now : Q) (c : tracker_call) (m : LoginLockoutManager) :
      reachable t m -> (t <= now)%Q -> reachable now (run_call now c m).

(** ** utils/login_helpers.py : validate_login_input *)

Definition at_sign : N := 64.
Definition full_stop : N := 46.

Definition msg_enter_both : pystr :=
  py "Please enter both username and password.".
Definition msg_valid_email : pystr :=
  py "Please enter a valid email address.".
Definition msg_password_length : pystr :=
  py "Password must be at least 8 characters.".

(** [not s] on a string: true for the empty string. *)
Definition str_falsy (s : pystr) : bool :=
  match s with [] => true | _ => false end.

Definition validate_login_input (username password : pystr) : bool * pystr :=
  if str_falsy username || str_falsy password then (false, msg_enter_both)
  else if negb (str_contains at_sign username)
          || negb (str_contains full_stop username) then
    (false, msg_valid_email)
  else if (length password <? 8)%nat then (false, msg_password_length)
  else (true, []).

(** ** Library functions the code calls and does not define *)

(** The Unicode tables behind [str.strip], [str.upper] and [str.lower], the
    server's [UPPER()] and the parser of [datetime.fromisoformat] are not
    part of the repository: every statement below holds whatever they are. *)
Class PyLib : Type := {
  str_strip : list N -> list N;
  str_upper : list N -> list N;
  str_lower : list N -> list N;
  sql_upper : list N -> list N;
  fromisoformat : list N -> result Z
}.

(** ** A state-and-exception monad for the stateful code *)

Definition M (S A : Type) : Type := S -> result A * S.

Definition ret {S A} (a : A) : M S A := fun s => (Ok a, s).

Definition bind {S A B} (m : M S A) (k : A -> M S B) : M S B :=
  fun s =>
    match m s with
    | (Ok a, s1) => k a s1
    | (Raise e, s1) => (Raise e, s1)
    end.

Definition lift {S A} (r : result A) : M S A := fun s => (r, s).

Definition raise {S A} (e : exn) : M S A := fun s => (Raise e, s).

(** Run a computation on a component of the state. *)
Definition zoom {S T A} (get : S -> T) (set : T -> S -> S)
    (m : M T A) : M S A :=
  fun s => let (r, t) := m (get s) in (r, set t s).

Declare Scope monad_scope.
Delimit Scope monad_scope with monad.
Notation "x <- c ;; k" := (bind c (fun x => k))
  (at level 100, c at next level, right associativity) : monad_scope.
Notation "c ;;; k" := (bind c (fun _ => k))
  (at level 100, right associativity) : monad_scope.
Local Open Scope monad_scope.

(** ** utils/database.py *)

(** A row of [users], with the columns the code reads. *)
Record user_row : Type := {
  user_id : Z;
  first_name : list N;
  email : list N;
  password_hash : list N
}.

(** The [expires_at] column as the connector hands it back: a [datetime], or
    text when the column is a string column. *)
Inductive column_time : Type :=
  | AsDatetime (t : Z)
  | AsText (s : list N).

Record token_row : Type := {
  token_id : Z;
  token_user_id : Z;
  token : list N;
  expires_at : column_time;
  is_used : bool
}.

(** The statements the class sends to the server. *)
Inductive statement : Type :=
  | SelectUser (username : list N)
  | UpdatePassword (uid : Z) (new_password_hash : list N)
  | InsertToken (uid : Z) (tok : list N) (expires : Z)
  | SelectToken (tok : list N)
  | UpdateTokenUsed (tid : Z).

(** The data store: its two tables, the journal of the statements executed
    so far with their outcome, and [outage n], which tells whether the
    statement number [n] fails with [mysql.connector.Error]. *)
Record Database : Type := {
  users : list user_row;
  password_reset_tokens : list token_row;
  journal : list (statement * bool);
  outage : nat -> bool
}.

Definition DB (A : Type) : Type := M Database A.

(** [cursor.execute(q)]: journalled; the answer is whether it went through.
    The connection is in autocommit mode and a failed statement changes no
    table. *)
Definition journalled (q : statement) (ok : bool) (db : Database)
    : Database :=
  {| users := users db;
     password_reset_tokens := password_reset_tokens db;
     journal := journal db ++ [(q, ok)];
     outage := outage db |}.

Definition execute (q : statement) : DB bool :=
  fun db =>
    let ok := negb (outage db (length (journal db))) in
    (Ok ok, journalled q ok db).

Definition put_users (f : list user_row -> list user_row) (db : Database)
    : Database :=
  {| users := f (users db);
     password_reset_tokens := password_reset_tokens db;
     journal := journal db;
     outage := outage db |}.

Definition put_tokens (f : list token_row -> list token_row) (db : Database)
    : Database :=
  {| users := users db;
     password_reset_tokens := f (password_reset_tokens db);
     journal := journal db;
     outage := outage db |}.

Definition set_users (f : list user_row -> list user_row) : DB unit :=
  fun db => (Ok tt, put_users f db).

Definition set_tokens (f : list token_row -> list token_row) : DB unit :=
  fun db => (Ok tt, put_tokens f db).

Definition read {A} (f : Database -> A) : DB A := fun db => (Ok (f db), db).

(** [get_user_by_username]: no [try] around the statement. *)
Definition get_user_by_username (username : pystr) : DB (option user_row) :=
  ok <- execute (SelectUser username) ;;
  if ok then
    read (fun db => List.find (fun u => str_eqb (email u) username) (users db))
  else raise DatabaseError.

Definition with_password (h : pystr) (u : user_row) : user_row :=
  {| user_id := user_id u; first_name := first_name u; email := email u;
     password_hash := h |}.

(** [UPDATE users SET password_hash=%s WHERE user_id=%s] *)
Definition updated_users (uid : Z) (h : pystr) (rows : list user_row)
    : list user_row :=
  List.map (fun u => if (user_id u =? uid)%Z then with_password h u else u)
           rows.

(** [update_user_password]: the connector's error is caught, [False]. *)
Definition update_user_password (uid : Z) (new_password_hash : pystr)
    : DB bool :=
  ok <- execute (UpdatePassword uid new_password_hash) ;;
  if ok then
    (set_users (updated_users uid new_password_hash) ;;; ret true)
  else ret false.

(** AUTO_INCREMENT key of a new row. *)
Definition next_token_id (rows : list token_row) : Z :=
  (1 + fold_right Z.max 0 (List.map token_id rows))%Z.

Definition create_password_reset_token `{PyLib} (uid : Z) (tok : pystr)
    (expires : Z) : DB bool :=
  let tok := str_upper (str_strip tok) in
  ok <- execute (InsertToken uid tok expires) ;;
  if ok then
    (set_tokens (fun rows =>
       rows ++ [{| token_id := next_token_id rows; token_user_id := uid;
                   token := tok; expires_at := AsDatetime expires;
                   is_used := false |}]) ;;;
     ret true)
  else ret false.

(** [SELECT * FROM password_reset_tokens WHERE UPPER(token)=%s] followed by
    [fetchone()]: the first matching row, if any. *)
Definition select_token `{PyLib} (rows : list token_row) (tok : pystr)
    : option token_row :=
  List.find (fun r => str_eqb (sql_upper (token r)) tok) rows.

(** [get_password_reset_token]: no [try] around the statement. *)
Definition get_password_reset_token `{PyLib} (tok : pystr)
    : DB (option token_row) :=
  let tok := str_upper (str_strip tok) in
  ok <- execute (SelectToken tok) ;;
  if ok then read (fun db => select_token (password_reset_tokens db) tok)
  else raise DatabaseError.

Definition with_used (r : token_row) : token_row :=
  {| token_id := token_id r; token_user_id := token_user_id r;
     token := token r; expires_at := expires_at r; is_used := true |}.

(** [UPDATE password_reset_tokens SET is_used=TRUE WHERE token_id=%s] *)
Definition used_tokens (tid : Z) (rows : list token_row) : list token_row :=
  List.map (fun r => if (token_id r =? tid)%Z then with_used r else r) rows.

Definition db_mark_token_used (tid : Z) : DB bool :=
  ok <- execute (UpdateTokenUsed tid) ;;
  if ok then (set_tokens (used_tokens tid) ;;; ret true)
  else ret false.

(** ** utils/login_helpers.py : authenticate_user *)

Definition authenticate_user (username password : pystr)
    : DB (bool * option user_row) :=
  user <- get_user_by_username username ;;
  match user with
  | None => ret (false, None)
  | Some u =>
      v <- lift (verify_password (password_hash u) password) ;;
      if negb v then ret (false, None) else ret (true, Some u)
  end.

(** ** utils/reset_helpers.py *)

Definition RESET_TOKEN_EXPIRY_MINUTES : Z := 5.

(** [timedelta(minutes=m)] in microseconds. *)
Definition minutes (m : Z) : Z := (m * 60 * 1000000)%Z.

(** [string.ascii_uppercase + string.digits] *)
Definition alphabet : pystr := py "ABCDEFGHIJKLMNOPQRSTUVWXYZ0123456789".

(** [secrets.choice(seq)] is [seq[randbelow(len(seq))]]; [r] is the number
    the call draws. *)
Definition choice (seq : pystr) (r : nat) : N := nth r seq 0.

(** [generate_reset_code(length)]: [draw i] is the number drawn by the
    [i]-th call of [secrets.choice]. *)
Definition generate_reset_code (draw : nat -> nat) (length : Z) : pystr :=
  List.map (fun i => choice alphabet (draw i)) (seq 0 (Z.to_nat length)).

Definition create_reset_token `{PyLib} (draw : nat -> nat) (now : Z)
    (uid : Z) : DB (option (list N)) :=
  let tok := str_upper (generate_reset_code draw 6) in
  let expires := (now + minutes RESET_TOKEN_EXPIRY_MINUTES)%Z in
  success <- create_password_reset_token uid tok expires ;;
  if success : bool then ret (Some tok) else ret None.

(** [validate_reset_token(db, token)]; [now] is [datetime.utcnow()]. *)
Definition validate_reset_token `{PyLib} (tok : pystr) (now : Z) : DB bool :=
  let tok := str_upper (str_strip tok) in
  token_data <- get_password_reset_token tok ;;
  match token_data with
  | None => ret false
  | Some row =>
      if is_used row then ret false
      else
        expires <- lift (match expires_at row with
                         | AsDatetime t => Ok t
                         | AsText s => fromisoformat s
                         end) ;;
        if (expires <? now)%Z then ret false else ret true
  end.

Definition mark_token_used (tid : Z) : DB bool := db_mark_token_used tid.

Definition reset_password (entropy : pybytes) (uid : Z)
    (new_password : pystr) : DB bool :=
  hashed <- lift (hash_password entropy new_password) ;;
  success <- update_user_password uid hashed ;;
  ret success.

(** ** screens/login.py *)

(** What the screens show or emit. *)
Inductive ui_event : Type :=
  | ValidationErrorBox (error : list N)
  | LockedOutBox (remaining : Z)
  | LoginFailedBox (attempts_left : Z)
  | LoginSuccessful (username : list N)
  | ResetErrorBox (text : list N)
  | ResetSuccessBox
  | ResetSuccessful.

Record LoginScreen : Type := {
  db : Database;
  lockout_manager : LoginLockoutManager;
  _is_logging_in : bool;
  _pending : option (list N * list N);
  _login_timer : bool;
  shown : list ui_event
}.

Definition login_db : forall {A}, DB A -> M LoginScreen A :=
  fun A =>
  zoom db (fun d s => {| db := d; lockout_manager := lockout_manager s;
                         _is_logging_in := _is_logging_in s;
                         _pending := _pending s;
                         _login_timer := _login_timer s;
                         shown := shown s |}).

Definition login_tracker {A} (f : LoginLockoutManager -> A * LoginLockoutManager)
    : M LoginScreen A :=
  fun s =>
    let (a, m) := f (lockout_manager s) in
    (Ok a, {| db := db s; lockout_manager := m;
              _is_logging_in := _is_logging_in s; _pending := _pending s;
              _login_timer := _login_timer s; shown := shown s |}).

Definition login_show (e : ui_event) : M LoginScreen unit :=
  fun s => (Ok tt, {| db := db s; lockout_manager := lockout_manager s;
                      _is_logging_in := _is_logging_in s;
                      _pending := _pending s;
                      _login_timer := _login_timer s;
                      shown := shown s ++ [e] |}).

Definition _set_login_state (enabled : bool) : M LoginScreen unit :=
  fun s => (Ok tt, {| db := db s; lockout_manager := lockout_manager s;
                      _is_logging_in := enabled; _pending := _pending s;
                      _login_timer := _login_timer s; shown := shown s |}).

(** The single-shot timer has fired. *)
Definition timer_fired : M LoginScreen unit :=
  fun s => (Ok tt, {| db := db s; lockout_manager := lockout_manager s;
                      _is_logging_in := _is_logging_in s;
                      _pending := _pending s;
                      _login_timer := false; shown := shown s |}).

Definition start_login (username password : pystr) : M LoginScreen unit :=
  fun s => (Ok tt, {| db := db s; lockout_manager := lockout_manager s;
                      _is_logging_in := _is_logging_in s;
                      _pending := Some (username, password);
                      _login_timer := true; shown := shown s |}).

(** [_on_login_clicked]: the two texts are the contents of the input fields;
    [t1], [t2] are the clock readings of [is_locked_out] and of
    [get_remaining_lockout_minutes]. *)
Definition _on_login_clicked `{PyLib} (username_text password_text : pystr)
    (t1 t2 : Q) : M LoginScreen unit :=
  fun self =>
  if _is_logging_in self then (Ok tt, self)
  else
    let username := str_lower (str_strip username_text) in
    let password := password_text in
    let (valid, error) := validate_login_input username password in
    if negb valid then login_show (ValidationErrorBox error) self
    else
      (locked <- login_tracker (is_locked_out t1 username) ;;
       if locked : bool then
         remaining <- login_tracker (fun m =>
           (get_remaining_lockout_minutes t2 username m, m)) ;;
         login_show (LockedOutBox remaining)
       else
         (_set_login_state true ;;;
          start_login username password)) self.

(** [_complete_login_attempt], the slot of the one-second timer; [t1], [t2],
    [t3] are the clock readings of the three tracker calls of the failure
    branch. *)
Definition _complete_login_attempt (t1 t2 t3 : Q) : M LoginScreen unit :=
  fun self =>
  match _pending self with
  | None => (Raise AttributeError, self)
  | Some (username, password) =>
      (timer_fired ;;;
       auth <- login_db (authenticate_user username password) ;;
       (if fst auth : bool then
          (login_tracker (fun m => (tt, clear_lockout username m)) ;;;
           login_show (LoginSuccessful username))
        else
          (login_tracker (fun m =>
             (tt, increment_failed_attempts t1 username m)) ;;;
           attempts_left <- login_tracker (fun m =>
             ((3 - attempts_of username m)%Z, m)) ;;
           locked <- login_tracker (is_locked_out t2 username) ;;
           if locked : bool then
             remaining <- login_tracker (fun m =>
               (get_remaining_lockout_minutes t3 username m, m)) ;;
             login_show (LockedOutBox remaining)
           else login_show (LoginFailedBox attempts_left))) ;;;
       _set_login_state false) self
  end.

(** ** screens/reset_password.py *)

Record PasswordResetScreen : Type := {
  reset_db : Database;
  reset_shown : list ui_event
}.

Definition reset_with_db : forall {A}, DB A -> M PasswordResetScreen A :=
  fun A =>
  zoom reset_db (fun d s => {| reset_db := d; reset_shown := reset_shown s |}).

Definition reset_show (e : ui_event) : M PasswordResetScreen unit :=
  fun s => (Ok tt, {| reset_db := reset_db s;
                      reset_shown := reset_shown s ++ [e] |}).

Definition msg_fill_in : pystr := py "Please fill in all fields.".
Definition msg_invalid_code : pystr := py "Invalid or expired reset code.".
Definition msg_reset_failed : pystr := py "Failed to reset password.".

(** [on_reset_password]: the two texts are the contents of the input fields,
    [rnd] the random bytes [hash_password] reads, [now] the value of
    [datetime.utcnow()] in [validate_reset_token]. Subscripting the [None]
    a second lookup may answer raises. *)
Definition on_reset_password `{PyLib} (token_text new_password : pystr)
    (rnd : pybytes) (now : Z) : M PasswordResetScreen unit :=
  let tok := str_strip token_text in
  if str_falsy tok || str_falsy new_password then
    reset_show (ResetErrorBox msg_fill_in)
  else if (length new_password <? 8)%nat then
    reset_show (ResetErrorBox msg_password_length)
  else
    valid <- reset_with_db (validate_reset_token tok now) ;;
    if negb valid then reset_show (ResetErrorBox msg_invalid_code)
    else
      token_data <- reset_with_db (get_password_reset_token tok) ;;
      match token_data with
      | None => raise TypeError
      | Some row =>
          let uid := token_user_id row in
          done <- reset_with_db (reset_password rnd uid new_password) ;;
          if done : bool then
            (reset_with_db (mark_token_used (token_id row)) ;;;
             reset_show ResetSuccessBox ;;;
             reset_show ResetSuccessful)
          else reset_show (ResetErrorBox msg_reset_failed)
      end.

(** ** A sample library: ASCII text

    An instance of [PyLib] that agrees with Python on ASCII strings and on
    timestamps written [YYYY-MM-DD HH:MM:SS]; it is what the examples run
    on. *)

Module Sample.

Definition is_space (c : N) : bool :=
  (c =? 32) || ((9 <=? c) && (c <=? 13)) || ((28 <=? c) && (c <=? 31)).

Fixpoint lstrip (s : pystr) : pystr :=
  match s with
  | c :: s' => if is_space c then lstrip s' else s
  | [] => []
  end.

Definition strip (s : pystr) : pystr := rev (lstrip (rev (lstrip s))).

Definition upper_char (c : N) : N :=
  if (97 <=? c) && (c <=? 122) then c - 32 else c.

Definition lower_char (c : N) : N :=
  if (65 <=? c) && (c <=? 90) then c + 32 else c.

Definition upper (s : pystr) : pystr := List.map upper_char s.
Definition lower (s : pystr) : pystr := List.map lower_char s.

Definition digit (c : N) : result Z :=
  if (48 <=? c) && (c <=? 57) then Ok (Z.of_N (c - 48)) else Raise ValueError.

Fixpoint number (acc : Z) (s : pystr) : result Z :=
  match s with
  | [] => Ok acc
  | c :: s' => rbind (digit c) (fun d => number (acc * 10 + d)%Z s')
  end.

(** Days from 1970-01-01 to the given proleptic Gregorian date. *)
Definition days_from_civil (y m d : Z) : Z :=
  let y' := (if m <=? 2 then y - 1 else y)%Z in
  let era := (y' / 400)%Z in
  let yoe := (y' - era * 400)%Z in
  let mp := (if m >? 2 then m - 3 else m + 9)%Z in
  let doy := ((153 * mp + 2) / 5 + d - 1)%Z in
  let doe := (yoe * 365 + yoe / 4 - yoe / 100 + doy)%Z in
  (era * 146097 + doe - 719468)%Z.

Definition days_in_month (y m : Z) : Z :=
  (if m =? 2 then
     if ((y mod 4 =? 0) && negb (y mod 100 =? 0)) || (y mod 400 =? 0)
     then 29 else 28
   else if (m =? 4) || (m =? 6) || (m =? 9) || (m =? 11) then 30
   else 31)%Z.

Definition parse_datetime (s : pystr) : result Z :=
  match s with
  | [y1; y2; y3; y4; d1; m1; m2; d2; a1; a2; sep;
     h1; h2; c1; n1; n2; c2; s1; s2] =>
      if (d1 =? 45) && (d2 =? 45) && ((sep =? 32) || (sep =? 84))
         && (c1 =? 58) && (c2 =? 58) then
        rbind (number 0 [y1; y2; y3; y4]) (fun y =>
        rbind (number 0 [m1; m2]) (fun m =>
        rbind (number 0 [a1; a2]) (fun d =>
        rbind (number 0 [h1; h2]) (fun hh =>
        rbind (number 0 [n1; n2]) (fun mm =>
        rbind (number 0 [s1; s2]) (fun ss =>
        if ((1 <=? y) && (1 <=? m) && (m <=? 12) && (1 <=? d)
            && (d <=? days_in_month y m) && (hh <=? 23) && (mm <=? 59)
            && (ss <=? 59))%Z
        then Ok ((((days_from_civil y m d * 24 + hh) * 60 + mm) * 60 + ss)
                 * 1000000)%Z
        else Raise ValueError))))))
      else Raise ValueError
  | _ => Raise ValueError
  end.

#[export] Instance lib : PyLib := {
  str_strip := strip;
  str_upper := upper;
  str_lower := lower;
  sql_upper := upper;
  fromisoformat := parse_datetime
}.

End Sample.

(** ** re.match, for the patterns of utils/signup_helpers.py *)

(** The constructs the two patterns are made of. [a+] is [PSeq a (PStar a)],
    [a?] is [PAlt PEmpty a]. *)
Inductive pattern : Type :=
  | PNone
  | PEmpty
  | PClass (cls : N -> bool)
  | PSeq (a b : pattern)
  | PAlt (a b : pattern)
  | PStar (a : pattern).

Definition one_or_more (a : pattern) : pattern := PSeq a (PStar a).
Definition optional (a : pattern) : pattern := PAlt PEmpty a.

(** [a{n}] and [a{0,n}] *)
Fixpoint exactly (n : nat) (a : pattern) : pattern :=
  match n with
  | O => PEmpty
  | S n' => PSeq a (exactly n' a)
  end.

Fixpoint up_to (n : nat) (a : pattern) : pattern :=
  match n with
  | O => PEmpty
  | S n' => optional (PSeq a (up_to n' a))
  end.

(** [a{lo,hi}] *)
Definition between (lo hi : nat) (a : pattern) : pattern :=
  PSeq (exactly lo a) (up_to (hi - lo) a).

(** Whether the pattern matches the empty string, and what is left of the
    pattern once it has read the character [c]. *)
Fixpoint accepts_empty (a : pattern) : bool :=
  match a with
  | PNone => false
  | PEmpty => true
  | PClass _ => false
  | PSeq a b => accepts_empty a && accepts_empty b
  | PAlt a b => accepts_empty a || accepts_empty b
  | PStar _ => true
  end.

Fixpoint after (c : N) (a : pattern) : pattern :=
  match a with
  | PNone => PNone
  | PEmpty => PNone
  | PClass cls => if cls c then PEmpty else PNone
  | PSeq a b =>
      if accepts_empty a then PAlt (PSeq (after c a) b) (after c b)
      else PSeq (after c a) b
  | PAlt a b => PAlt (after c a) (after c b)
  | PStar a => PSeq (after c a) (PStar a)
  end.

(** [re.match(a, s) is not None]: the pattern matches at the start of [s],
    that is, it matches some prefix of [s]. *)
Fixpoint re_match (a : pattern) (s : pystr) : bool :=
  accepts_empty a
  || match s with
     | [] => false
     | c :: s' => re_match (after c a) s'
     end.

Definition newline : N := 10.

(** The same for a pattern closed by [$], which matches at the end of the
    string and just before a newline that ends the string. *)
Fixpoint re_match_dollar (a : pattern) (s : pystr) : bool :=
  match s with
  | [] => accepts_empty a
  | c :: s' =>
      (accepts_empty a && (c =? newline) && str_falsy s')
      || re_match_dollar (after c a) s'
  end.

(** ** utils/signup_helpers.py : validate_signup_input *)

Definition plus_sign : N := 43.

Definition not_at : N -> bool := fun c => negb (c =? at_sign).

(** [[^@]+@[^@]+\.[^@]+] *)
Definition email_regex : pattern :=
  PSeq (one_or_more (PClass not_at))
    (PSeq (PClass (N.eqb at_sign))
       (PSeq (one_or_more (PClass not_at))
          (PSeq (PClass (N.eqb full_stop))
             (one_or_more (PClass not_at))))).

(** [^\+?\d{7,15}$] without its closing [$]; [digit] is the class [\d], the
    decimal digits of Unicode, whose table is not part of the
    repository. *)
Definition phone_regex (digit : N -> bool) : pattern :=
  PSeq (optional (PClass (N.eqb plus_sign)))
       (between 7 15 (PClass digit)).

Definition msg_full_name : pystr := py "Please enter your full name.".
Definition msg_invalid_email : pystr := py "Invalid email address.".
Definition msg_invalid_phone : pystr := py "Invalid phone number.".
Definition msg_password_long : pystr :=
  py "Password must be at least 8 characters long.".
Definition msg_no_match : pystr := py "Passwords do not match.".

Definition validate_signup_input (digit : N -> bool)
    (first_name last_name email phone password confirm_password : pystr)
    : bool * pystr :=
  if str_falsy first_name || str_falsy last_name then (false, msg_full_name)
  else if negb (re_match email_regex email) then (false, msg_invalid_email)
  else if negb (re_match_dollar (phone_regex digit) phone) then
    (false, msg_invalid_phone)
  else if (length password <? 8)%nat then (false, msg_password_long)
  else if negb (str_eqb password confirm_password) then (false, msg_no_match)
  else (true, []).

(** ** utils/reset_helpers.py : send_reset_email *)

(** [str(n)], what an f-string puts for an integer. *)
Definition str_of_int (n : Z) : pystr :=
  py (DecimalString.NilZero.string_of_int (Z.to_int n)).

Definition reset_email_subject : pystr := py "Password Reset Request".

Definition blank_line : pystr := [newline; newline].

Definition reset_email_body (first_name tok : pystr) : pystr :=
  py "Hello " ++ first_name ++ py "," ++ blank_line ++
  py "Use the following code to reset your password:" ++ blank_line ++
  tok ++ blank_line ++
  py "This code expires in " ++ str_of_int RESET_TOKEN_EXPIRY_MINUTES ++
  py " minutes." ++ blank_line ++
  py "If you did not request this, please ignore this email.".

(** [send_email] is imported from utils/email_utils.py, which is not among
    the sources: it is a parameter here, a function of the address, the
    subject and the body that answers whether the message went out, or
    raises. *)
Definition send_reset_email
    (send_email : pystr -> pystr -> pystr -> result bool)
    (email first_name tok : pystr) : result bool :=
  send_email email reset_email_subject (reset_email_body first_name tok).

(** ** screens/reset_password.py : on_send_code *)

Inductive message_box : Type :=
  | WarningBox (title text : list N)
  | InformationBox (title text : list N).

Definition msg_enter_email : pystr := py "Please enter your email.".
Definition msg_email_not_found : pystr := py "Email not found.".
Definition msg_token_failed : pystr := py "Failed to create reset token.".
Definition msg_code_sent : pystr := py "Reset code sent to your email.".
Definition msg_send_failed : pystr := py "Failed to send reset email.".

(** [on_send_code]: the slot shows one message box on every path that
    returns, and the model answers that box; the state is [self.db].
    [email_text] is the content of the input field, [draw] and [now] are
    what [create_reset_token] reads. *)
Definition on_send_code `{PyLib}
    (send_email : pystr -> pystr -> pystr -> result bool)
    (email_text : pystr) (draw : nat -> nat) (now : Z) : DB message_box :=
  let email := str_lower (str_strip email_text) in
  if str_falsy email then ret (WarningBox (py "Error") msg_enter_email)
  else
    user <- get_user_by_username email ;;
    match user with
    | None => ret (WarningBox (py "Error") msg_email_not_found)
    | Some u =>
        tok <- create_reset_token draw now (user_id u) ;;
        match tok with
        | None => ret (WarningBox (py "Error") msg_token_failed)
        | Some t =>
            if str_falsy t then
              ret (WarningBox (py "Error") msg_token_failed)
            else
              sent <- lift (send_reset_email send_email email
                              (first_name u) t) ;;
              if sent : bool then
                ret (InformationBox (py "Email Sent") msg_code_sent)
              else ret (WarningBox (py "Error") msg_send_failed)
        end
    end.

(** ** Vocabulary of the properties *)

(** The characters of hexadecimal text. *)
Definition is_hex (c : N) : Prop := In c hex_alphabet.

(** The salt [hash_password] draws: [secrets.token_hex(16)]. *)
Definition salt_of (entropy : pybytes) : pystr :=
  hex_of_bytes (firstn 16 entropy).

(** A history of calls, oldest first, each with its clock reading. *)
Definition run_calls (h : list (Q * tracker_call))
    (m : LoginLockoutManager) : LoginLockoutManager :=
  fold_left (fun m tc => run_call (fst tc) (snd tc) m) h m.

(** A call that is neither a failure nor a success of [u]. *)
Definition quiet (u : pystr) (c : tracker_call) : Prop :=
  match c with
  | RecordFailure v | RecordSuccess v => v <> u
  | IsLockedOut _ | RemainingMinutes _ => True
  end.

(** In every reachable state an identity with an expiry has at least
    [MAX_ATTEMPTS] recorded failures, every recorded count is positive, and
    no expiry lies more than [LOCKOUT_DURATION] after the last clock
    reading. *)
Definition tracker_inv (t : Q) (m : LoginLockoutManager) : Prop :=
  forall u,
    (forall n, failed_attempts m !! u = Some n -> (1 <= n)%Z) /\
    (forall e, lockout_expiry m !! u = Some e ->
       (MAX_ATTEMPTS <= attempts_of u m)%Z /\ (e <= t + LOCKOUT_DURATION)%Q).

(** The shapes the specification rejects. *)
Definition shape_invalid (identity password : pystr) : Prop :=
  identity = [] \/ password = [] \/
  str_contains at_sign identity = false \/
  str_contains full_stop identity = false \/
  (length password < 8)%nat.

(** The normalisation both [validate_reset_token] and
    [get_password_reset_token] apply to their argument. *)
Definition token_key `{PyLib} (tok : pystr) : pystr :=
  str_upper (str_strip tok).

(** The expiry of a row as [validate_reset_token] reads it. *)
Definition expiry_of `{PyLib} (row : token_row) : result Z :=
  match expires_at row with
  | AsDatetime t => Ok t
  | AsText s => fromisoformat s
  end.

(** What [validate_reset_token] answers on a table, once the row is
    fetched. *)
Definition verdict `{PyLib} (rows : list token_row) (key : pystr) (now : Z)
    : result bool :=
  match select_token rows key with
  | None => Ok false
  | Some row =>
      if is_used row then Ok false
      else rbind (expiry_of row) (fun t => Ok (negb (t <? now)%Z))
  end.

(** The statements a call of [on_reset_password] may add to the journal:
    nothing, one or two SELECTs, then the password UPDATE, and the token
    UPDATE only behind a password UPDATE that went through. *)
Inductive reset_trace : list (statement * bool) -> Prop :=
  | trace_guard : reset_trace []
  | trace_validate (k : list N) (ok : bool) :
      reset_trace [(SelectToken k, ok)]
  | trace_fetch (k k' : list N) (ok : bool) :
      reset_trace [(SelectToken k, true); (SelectToken k', ok)]
  | trace_write_failed (k k' : list N) (uid : Z) (h : list N) :
      reset_trace [(SelectToken k, true); (SelectToken k', true);
                   (UpdatePassword uid h, false)]
  | trace_consumed (k k' : list N) (uid tid : Z) (h : list N) (ok : bool) :
      reset_trace [(SelectToken k, true); (SelectToken k', true);
                   (UpdatePassword uid h, true); (UpdateTokenUsed tid, ok)].

(** ** Sample data *)

Definition alice : pystr := py "alice@example.com".
Definition bob : pystr := py "bob@example.com".

(** Two, then three failures of alice, at clock readings 0, 1 and 2. *)
Definition two_failures : LoginLockoutManager :=
  run_call 1 (RecordFailure alice) (run_call 0 (RecordFailure alice) new_manager).

Definition three_failures : LoginLockoutManager :=
  run_call 2 (RecordFailure alice) two_failures.

(** A source of draws for the examples. *)
Definition sample_draw (i : nat) : nat := ((7 * i + 3) mod 36)%nat.

(** The stored hash of the password of the sample user. *)
Definition sample_stored : pystr :=
  match hash_password (repeat 171 16) (py "correct horse") with
  | Ok stored => stored
  | Raise _ => []
  end.

(** A fresh token of user 42 that expires at 1000. *)
Definition sample_row : token_row :=
  {| token_id := 7; token_user_id := 42; token := py "AB12CD";
     expires_at := AsDatetime 1000; is_used := false |}.

(** A store with one user and one fresh token that expires at 1000. *)
Definition sample_db (out : nat -> bool) : Database :=
  {| users := [{| user_id := 42; first_name := py "Ada";
                  email := py "user@example.com";
                  password_hash := sample_stored |}];
     password_reset_tokens :=
       [sample_row];
     journal := [];
     outage := out |}.

(** A store on which every statement goes through. *)
Definition no_outage (n : nat) : bool := false.

Definition sample_login : LoginScreen :=
  {| db := sample_db no_outage; lockout_manager := new_manager;
     _is_logging_in := false; _pending := None; _login_timer := false;
     shown := [] |}.

(** A reset attempt during which the third statement, the password UPDATE,
    fails. *)
Definition sample_reset : PasswordResetScreen :=
  {| reset_db := sample_db (fun n => Nat.eqb n 2); reset_shown := [] |}.

(** The reset attempt on that store. *)
Definition failed_attempt : result unit * PasswordResetScreen :=
  @on_reset_password Sample.lib (py " ab12cd ") (py "new password")
    (repeat 1 16) 999 sample_reset.

(** One click on Login followed by the timer's slot, all clock readings
    being [t]. *)
Definition login_attempt (password : pystr) (t : Q) (self : LoginScreen)
    : LoginScreen :=
  let clicked := snd (@_on_login_clicked Sample.lib (py " User@Example.com ")
                        password t t self) in
  if _login_timer clicked then snd (_complete_login_attempt t t t clicked)
  else clicked.

(** The identity a call on the tracker is about. *)
Definition call_user (c : tracker_call) : list N :=
  match c with
  | RecordFailure u | RecordSuccess u | IsLockedOut u | RemainingMinutes u => u
  end.

(** [SELECT * FROM users WHERE email=%s] followed by [fetchone()]. *)
Definition select_user (rows : list user_row) (username : pystr)
    : option user_row :=
  List.find (fun u => str_eqb (email u) username) rows.

(** The calls on a [Database] object. *)
Inductive db_op : Type :=
  | OpGetUser (username : list N)
  | OpUpdatePassword (uid : Z) (new_password_hash : list N)
  | OpCreateToken (uid : Z) (tok : list N) (expires : Z)
  | OpGetToken (tok : list N)
  | OpMarkUsed (tid : Z).

Definition run_op `{PyLib} (op : db_op) (d : Database) : Database :=
  match op with
  | OpGetUser username => snd (get_user_by_username username d)
  | OpUpdatePassword uid h => snd (update_user_password uid h d)
  | OpCreateToken uid tok expires =>
      snd (create_password_reset_token uid tok expires d)
  | OpGetToken tok => snd (get_password_reset_token tok d)
  | OpMarkUsed tid => snd (db_mark_token_used tid d)
  end.

Definition run_ops `{PyLib} (ops : list db_op) (d : Database) : Database :=
  fold_left (fun d op => run_op op d) ops d.

(** The user of the sample store. *)
Definition sample_user : user_row :=
  {| user_id := 42; first_name := py "Ada"; email := py "user@example.com";
     password_hash := sample_stored |}.

(** A login screen whose timer is about to complete an attempt of the
    sample user. *)
Definition pending_login (d : Database) (m : LoginLockoutManager)
    (password : pystr) : LoginScreen :=
  {| db := d; lockout_manager := m; _is_logging_in := true;
     _pending := Some (py "user@example.com", password);
     _login_timer := true; shown := [] |}.

(** A login screen on which alice is locked out until 302. *)
Definition locked_login : LoginScreen :=
  {| db := sample_db no_outage; lockout_manager := three_failures;
     _is_logging_in := false; _pending := None; _login_timer := false;
     shown := [] |}.

(** The strings a pattern matches as a whole. *)
Inductive matches : pattern -> list N -> Prop :=
  | matches_empty : matches PEmpty []
  | matches_class (cls : N -> bool) (c : N) :
      cls c = true -> matches (PClass cls) [c]
  | matches_seq (a b : pattern) (s1 s2 : list N) :
      matches a s1 -> matches b s2 -> matches (PSeq a b) (s1 ++ s2)
  | matches_alt_l (a b : pattern) (s : list N) :
      matches a s -> matches (PAlt a b) s
  | matches_alt_r (a b : pattern) (s : list N) :
      matches b s -> matches (PAlt a b) s
  | matches_star_nil (a : pattern) : matches (PStar a) []
  | matches_star_more (a : pattern) (s1 s2 : list N) :
      matches a s1 -> matches (PStar a) s2 -> matches (PStar a) (s1 ++ s2).

(** The decimal digits of ASCII, for the examples. *)
Definition ascii_digit (c : N) : bool := (48 <=? c) && (c <=? 57).

(** A mailer that is down, and one that records nothing and succeeds. *)
Definition mailer_down (address subject body : pystr) : result bool :=
  Ok false.

Definition mailer_up (address subject body : pystr) : result bool :=
  Ok true.

(** A store with the sample user and no reset code yet. *)
Definition fresh_db : Database :=
  {| users := [sample_user]; password_reset_tokens := [];
     journal := []; outage := no_outage |}.

(** * Properties *)

(** ** Test vectors of the digest (FIPS 180-4, appendix B) *)

Example sha256_constants :
  length SHA256.K = 64%nat /\
  hd 0 SHA256.K = 0x428a2f98 /\ List.last SHA256.K 0 = 0xc67178f2 /\
  hd 0 SHA256.H0 = 0x6a09e667 /\ List.last SHA256.H0 0 = 0x5be0cd19.
Proof. repeat split. Qed.

Example sha256_abc :
  sha256_hexdigest (py "abc")
  = py "ba7816bf8f01cfea414140de5dae2223b00361a396177a9cb410ff61f20015ad".
Proof. vm_compute. reflexivity. Qed.

Example sha256_empty :
  sha256_hexdigest []
  = py "e3b0c44298fc1c149afbf4c8996fb92427ae41e4649b934ca495991b7852b855".
Proof. vm_compute. reflexivity. Qed.

Example sha256_two_blocks :
  sha256_hexdigest
    (py "abcdbcdecdefdefgefghfghighijhijkijkljklmklmnlmnomnopnopq")
  = py "248d6a61d20638b8e5c026930c3e6039a33ce45964ff2167f6ecedd419db06c1".
Proof. vm_compute. reflexivity. Qed.

Example utf8_samples :
  str_encode [0xE9; 0x20AC; 0x1F600]
  = Ok [195; 169; 226; 130; 172; 240; 159; 152; 128].
Proof. reflexivity. Qed.

(** ** Strings *)

Lemma str_eqb_refl (s : pystr) : str_eqb s s = true.
Proof.
  induction s as [|c s IH]; simpl; [reflexivity|].
  now rewrite N.eqb_refl, IH.
Qed.

Lemma str_eqb_eq (a b : pystr) : str_eqb a b = true <-> a = b.
Proof.
  split.
  - revert b. induction a as [|x a IH]; intros [|y b] E; simpl in E;
      try discriminate; [reflexivity|].
    apply andb_true_iff in E as [E1 E2].
    apply N.eqb_eq in E1. apply IH in E2. now subst.
  - intros ->. apply str_eqb_refl.
Qed.

(** [split] yields one field more than there are separators. *)
Lemma str_split_length (sep : N) (s : pystr) :
  length (str_split sep s) = S (str_count sep s).
Proof.
  induction s as [|c s IH]; simpl; [reflexivity|].
  destruct (N.eqb c sep); simpl.
  - now rewrite IH.
  - destruct (str_split sep s); simpl in *; [discriminate | exact IH].
Qed.

Lemma str_count_app (c : N) (a b : pystr) :
  str_count c (a ++ b) = (str_count c a + str_count c b)%nat.
Proof.
  induction a as [|x a IH]; simpl; [reflexivity|]. rewrite IH. lia.
Qed.

Lemma str_split_none (sep : N) (s : pystr) :
  str_count sep s = 0%nat -> str_split sep s = [s].
Proof.
  induction s as [|c s IH]; simpl; [reflexivity|].
  destruct (N.eqb c sep); simpl; [discriminate|].
  intros E. now rewrite IH.
Qed.

Lemma str_split_app (sep : N) (a b : pystr) :
  str_count sep a = 0%nat ->
  str_split sep (a ++ sep :: b) = a :: str_split sep b.
Proof.
  induction a as [|c a IH]; simpl.
  - now rewrite N.eqb_refl.
  - destruct (N.eqb c sep); simpl; [discriminate|].
    intros E. now rewrite IH.
Qed.

(** The unpacking succeeds exactly on strings with one separator. *)
Lemma unpack2_split (sep : N) (s : pystr) :
  str_count sep s <> 1%nat -> unpack2 (str_split sep s) = Raise ValueError.
Proof.
  intros Hn. pose proof (str_split_length sep s) as L.
  destruct (str_split sep s) as [|a [|b [|c l]]]; simpl in *;
    try reflexivity.
  exfalso. apply Hn. lia.
Qed.

Lemma unpack2_split_one (sep : N) (s : pystr) :
  str_count sep s = 1%nat ->
  exists a b, s = a ++ sep :: b /\ unpack2 (str_split sep s) = Ok (a, b).
Proof.
  induction s as [|c s IH]; simpl; [discriminate|].
  destruct (N.eqb c sep) eqn:E; simpl.
  - intros C. injection C as C. apply N.eqb_eq in E. subst c.
    exists [], s. split; [reflexivity|].
    now rewrite (str_split_none _ _ C).
  - intros C. destruct (IH C) as (a & b & -> & U).
    exists (c :: a), b. split; [reflexivity|].
    destruct (str_split sep (a ++ sep :: b)) as [|x [|y [|z l]]];
      simpl in *; try discriminate.
    now injection U as -> ->.
Qed.

(** ** UTF-8 *)

Lemma utf8_char_returns (c : N) :
  is_surrogate c = false -> exists bs, utf8_char c = Ok bs.
Proof.
  intros H. unfold utf8_char. rewrite H.
  destruct (c <? 0x80); [eauto|].
  destruct (c <? 0x800); [eauto|].
  destruct (c <? 0x10000); eauto.
Qed.

Lemma utf8_char_surrogate (c : N) :
  is_surrogate c = true -> utf8_char c = Raise UnicodeEncodeError.
Proof.
  intros H. unfold utf8_char. rewrite H.
  unfold is_surrogate in H. apply andb_true_iff in H as [H1 H2].
  apply N.leb_le in H1.
  destruct (N.ltb_spec c 0x80); [lia|].
  destruct (N.ltb_spec c 0x800); [lia|]. reflexivity.
Qed.

(** [.encode()] returns exactly on the strings without surrogate. *)
Lemma str_encode_returns (s : pystr) :
  encodable s <-> exists bs, str_encode s = Ok bs.
Proof.
  unfold encodable. induction s as [|c s IH]; simpl.
  - split; [eauto | constructor].
  - split.
    + intros H. inversion H as [|? ? Hc Hs]; subst.
      destruct (utf8_char_returns c Hc) as [bs ->].
      apply IH in Hs as [rest ->]. simpl. eauto.
    + intros [bs H]. destruct (is_surrogate c) eqn:Hc.
      * rewrite (utf8_char_surrogate c Hc) in H. discriminate.
      * constructor; [exact Hc|]. apply IH.
        destruct (utf8_char c); simpl in H; [|discriminate].
        destruct (str_encode s); simpl in H; [eauto | discriminate].
Qed.

Lemma str_encode_raises (s : pystr) :
  ~ encodable s -> str_encode s = Raise UnicodeEncodeError.
Proof.
  unfold encodable. induction s as [|c s IH]; simpl; intros H.
  - exfalso. apply H. constructor.
  - destruct (is_surrogate c) eqn:Hc.
    + now rewrite (utf8_char_surrogate c Hc).
    + destruct (utf8_char_returns c Hc) as [bs ->]. simpl.
      rewrite IH; [reflexivity|].
      intros Hs. apply H. now constructor.
Qed.

Lemma encodable_app (a b : pystr) :
  encodable (a ++ b) <-> encodable a /\ encodable b.
Proof. unfold encodable. apply Forall_app. Qed.

(** ** Hexadecimal text *)

Lemma hex_digit_in (n : N) : In (hex_digit n) hex_alphabet.
Proof.
  unfold hex_digit.
  destruct (nth_in_or_default (N.to_nat n) hex_alphabet 48) as [H|H];
    [exact H|].
  rewrite H. vm_compute. tauto.
Qed.

Lemma hex_of_bytes_is_hex (bs : pybytes) : Forall is_hex (hex_of_bytes bs).
Proof.
  unfold hex_of_bytes. induction bs as [|b bs IH]; simpl.
  - constructor.
  - constructor; [apply hex_digit_in|].
    constructor; [apply hex_digit_in | exact IH].
Qed.

Lemma hex_of_bytes_length (bs : pybytes) :
  length (hex_of_bytes bs) = (2 * length bs)%nat.
Proof.
  unfold hex_of_bytes. induction bs as [|b bs IH]; simpl; [reflexivity|].
  rewrite IH. lia.
Qed.

Lemma is_hex_cases (c : N) :
  is_hex c -> (48 <= c <= 57) \/ (97 <= c <= 102).
Proof.
  intros H. vm_compute in H.
  repeat (destruct H as [H|H]; [subst c; lia|]). destruct H.
Qed.

Lemma hex_no_dollar (s : pystr) :
  Forall is_hex s -> str_count dollar s = 0%nat.
Proof.
  induction 1 as [|c s Hc _ IH]; simpl; [reflexivity|].
  rewrite IH. apply is_hex_cases in Hc.
  destruct (N.eqb_spec c dollar) as [->|]; [|reflexivity].
  unfold dollar in Hc. lia.
Qed.

Lemma hex_encodable (s : pystr) : Forall is_hex s -> encodable s.
Proof.
  unfold encodable. intros H. eapply List.Forall_impl; [|exact H].
  intros c Hc. apply is_hex_cases in Hc. unfold is_surrogate.
  apply andb_false_iff. left. apply N.leb_gt. lia.
Qed.

Lemma sha256_hexdigest_is_hex (data : pybytes) :
  Forall is_hex (sha256_hexdigest data).
Proof. apply hex_of_bytes_is_hex. Qed.

(** ** Credential hasher *)

Arguments sha256_hexdigest : simpl never.

Lemma token_hex_16 (entropy : pybytes) :
  token_hex entropy 16 = Ok (salt_of entropy).
Proof. reflexivity. Qed.

Lemma salt_of_is_hex (entropy : pybytes) : Forall is_hex (salt_of entropy).
Proof. apply hex_of_bytes_is_hex. Qed.

(** With sixteen bytes of entropy at hand the salt has 32 characters. *)
Lemma salt_of_length (entropy : pybytes) :
  (16 <= length entropy)%nat -> length (salt_of entropy) = 32%nat.
Proof.
  intros H. unfold salt_of. rewrite hex_of_bytes_length, length_firstn. lia.
Qed.

(** What [hash_password] returns, when it does. *)
Lemma hash_password_format (entropy : pybytes) (p stored : pystr) :
  hash_password entropy p = Ok stored ->
  exists data,
    str_encode (salt_of entropy ++ p) = Ok data /\
    stored = salt_of entropy ++ [dollar] ++ sha256_hexdigest data.
Proof.
  unfold hash_password. rewrite token_hex_16. cbn [rbind].
  destruct (str_encode (salt_of entropy ++ p)); cbn [rbind].
  - intros [= <-]. eauto.
  - discriminate.
Qed.

(** On a stored string of the shape [salt$digest], [verify_password]
    recomputes the digest. *)
Lemma verify_password_well_formed (salt h p : pystr) :
  str_count dollar salt = 0%nat -> str_count dollar h = 0%nat ->
  verify_password (salt ++ dollar :: h) p =
  rbind (str_encode (salt ++ p)) (fun data =>
         Ok (str_eqb (sha256_hexdigest data) h)).
Proof.
  intros Hs Hh. unfold verify_password.
  now rewrite (str_split_app _ _ _ Hs), (str_split_none _ _ Hh).
Qed.

Lemma verify_password_malformed (s p : pystr) :
  str_count dollar s <> 1%nat -> verify_password s p = Ok false.
Proof.
  intros H. unfold verify_password. now rewrite (unpack2_split _ _ H).
Qed.

(** The stored string for the entropy 01 02 ff and the password
    "hunter22". *)
Example hash_password_sample :
  hash_password [1; 2; 255] (py "hunter22")
  = Ok (py ("0102ff$d8f93149da9275760d75efd5eb4b1029"
            ++ "7f1d2805a90b03497bbeeb8db378e756")) /\
  verify_password (py ("0102ff$d8f93149da9275760d75efd5eb4b1029"
                       ++ "7f1d2805a90b03497bbeeb8db378e756"))
                  (py "hunter23") = Ok false.
Proof. vm_compute. split; reflexivity. Qed.

(** C1 (as amended). For every plaintext that [.encode()] accepts, that is
    every string without a lone surrogate code point, and for every salt the
    hashing step draws, [hash_password] returns a stored string and
    [verify_password] answers [True] on it and the same plaintext. *)
Theorem verify_password_hash_password (entropy : pybytes) (p : pystr) :
  encodable p ->
  exists stored,
    hash_password entropy p = Ok stored /\
    verify_password stored p = Ok true.
Proof.
  intros Hp.
  assert (Henc : encodable (salt_of entropy ++ p)).
  { apply encodable_app. split; [|exact Hp].
    apply hex_encodable, salt_of_is_hex. }
  apply str_encode_returns in Henc as [data Hdata].
  exists (salt_of entropy ++ [dollar] ++ sha256_hexdigest data). split.
  - unfold hash_password. rewrite token_hex_16. cbn [rbind].
    now rewrite Hdata.
  - simpl app. rewrite verify_password_well_formed.
    + rewrite Hdata. simpl. now rewrite str_eqb_refl.
    + apply hex_no_dollar, salt_of_is_hex.
    + apply hex_no_dollar, sha256_hexdigest_is_hex.
Qed.

Lemma verify_password_hash_password_witness :
  encodable (py "correct horse") /\
  exists stored,
    hash_password (repeat 171 16) (py "correct horse") = Ok stored /\
    verify_password stored (py "correct horse") = Ok true.
Proof.
  assert (H : encodable (py "correct horse"))
    by (unfold encodable; repeat constructor).
  split; [exact H|].
  exact (verify_password_hash_password (repeat 171 16) (py "correct horse") H).
Defined.

(** C1 as the specification words it, for every Python string, fails: a
    plaintext holding a lone surrogate makes [.encode()] raise inside
    [hash_password], so that no stored string is produced. *)
Lemma hash_password_lone_surrogate :
  hash_password (repeat 171 16) [0xD800] = Raise UnicodeEncodeError /\
  ~ (exists stored,
       hash_password (repeat 171 16) [0xD800] = Ok stored /\
       verify_password stored [0xD800] = Ok true).
Proof.
  assert (E : hash_password (repeat 171 16) [0xD800]
              = Raise UnicodeEncodeError) by (vm_compute; reflexivity).
  split; [exact E|]. intros (stored & H & _). rewrite E in H. discriminate.
Qed.

(** Two draws of the salt give two stored strings, and both verify. *)
Lemma hash_password_salted (rnd1 rnd2 : pybytes) (p s1 s2 : pystr) :
  salt_of rnd1 <> salt_of rnd2 ->
  hash_password rnd1 p = Ok s1 -> hash_password rnd2 p = Ok s2 ->
  s1 <> s2.
Proof.
  intros Hne H1 H2 E. subst s2.
  apply hash_password_format in H1 as (d1 & _ & ->).
  apply hash_password_format in H2 as (d2 & _ & E).
  assert (U : unpack2 (str_split dollar
                (salt_of rnd1 ++ dollar :: sha256_hexdigest d1))
              = unpack2 (str_split dollar
                (salt_of rnd2 ++ dollar :: sha256_hexdigest d2)))
    by (simpl app in E; now rewrite E).
  rewrite !str_split_app in U by apply hex_no_dollar, salt_of_is_hex.
  rewrite !str_split_none in U by apply hex_no_dollar, sha256_hexdigest_is_hex.
  simpl in U. congruence.
Qed.

(** C8 (as amended). A stored string without [$], or with more than one, is
    answered [False] without any exception, whatever the plaintext. On a
    stored string [salt$h] with exactly one [$], [verify_password] returns a
    Boolean when the salt followed by the plaintext is a string [.encode()]
    accepts, and raises [UnicodeEncodeError] when it is not; the part [h]
    is compared and never encoded. *)
Theorem verify_password_fails_closed (s p : pystr) :
  (str_count dollar s <> 1%nat -> verify_password s p = Ok false) /\
  (forall salt h : pystr,
     s = salt ++ dollar :: h -> str_count dollar s = 1%nat ->
     (encodable (salt ++ p) -> exists b, verify_password s p = Ok b) /\
     (~ encodable (salt ++ p) ->
      verify_password s p = Raise UnicodeEncodeError)).
Proof.
  split; [apply verify_password_malformed|].
  intros salt h -> C. rewrite str_count_app in C.
  assert (D : str_count dollar (dollar :: h) = S (str_count dollar h))
    by reflexivity.
  rewrite D in C.
  assert (Cs : str_count dollar salt = 0%nat) by lia.
  assert (Ch : str_count dollar h = 0%nat) by lia.
  rewrite (verify_password_well_formed salt h p Cs Ch). split.
  - intros He. apply str_encode_returns in He as [data ->]. simpl. eauto.
  - intros He. now rewrite (str_encode_raises _ He).
Qed.

Lemma verify_password_fails_closed_witness :
  (str_count dollar (py "no delimiter") <> 1%nat /\
   verify_password (py "no delimiter") [0xD800] = Ok false) /\
  (str_count dollar (py "a$b$c") <> 1%nat /\
   verify_password (py "a$b$c") (py "secret") = Ok false) /\
  (str_count dollar (py "0a" ++ dollar :: [0xD800]) = 1%nat /\
   encodable (py "0a" ++ py "secret") /\
   exists b,
     verify_password (py "0a" ++ dollar :: [0xD800]) (py "secret") = Ok b) /\
  (str_count dollar (py "0a$beef") = 1%nat /\
   ~ encodable (py "0a" ++ [0xD800]) /\
   verify_password (py "0a$beef") [0xD800] = Raise UnicodeEncodeError).
Proof.
  assert (H0 : str_count dollar (py "no delimiter") <> 1%nat)
    by (vm_compute; discriminate).
  assert (H2 : str_count dollar (py "a$b$c") <> 1%nat)
    by (vm_compute; discriminate).
  assert (C1 : str_count dollar (py "0a" ++ dollar :: [0xD800]) = 1%nat)
    by reflexivity.
  assert (C2 : str_count dollar (py "0a$beef") = 1%nat) by reflexivity.
  assert (Ea : encodable (py "0a" ++ py "secret"))
    by (unfold encodable; repeat constructor).
  assert (Eb : ~ encodable (py "0a" ++ [0xD800])).
  { intros E. apply encodable_app in E as [_ E].
    inversion E as [|c l Hc Hl]. vm_compute in Hc. discriminate Hc. }
  split; [|split; [|split]].
  - split; [exact H0|].
    exact (proj1 (verify_password_fails_closed (py "no delimiter") [0xD800])
                 H0).
  - split; [exact H2|].
    exact (proj1 (verify_password_fails_closed (py "a$b$c") (py "secret"))
                 H2).
  - split; [exact C1|]. split; [exact Ea|].
    exact (proj1 (proj2 (verify_password_fails_closed
                           (py "0a" ++ dollar :: [0xD800]) (py "secret"))
                        (py "0a") [0xD800] eq_refl C1) Ea).
  - split; [exact C2|]. split; [exact Eb|].
    exact (proj2 (proj2 (verify_password_fails_closed (py "0a$beef")
                           [0xD800])
                        (py "0a") (py "beef") eq_refl C2) Eb).
Defined.

(** C8 as the specification words it, total on all strings, fails: with a
    well-formed stored string the plaintext is encoded outside the [try],
    and a lone surrogate makes that raise. *)
Lemma verify_password_lone_surrogate :
  verify_password (py "0a$beef") [0xD800] = Raise UnicodeEncodeError /\
  ~ (forall s p, exists b, verify_password s p = Ok b).
Proof.
  assert (E : verify_password (py "0a$beef") [0xD800]
              = Raise UnicodeEncodeError) by (vm_compute; reflexivity).
  split; [exact E|]. intros H.
  destruct (H (py "0a$beef") [0xD800]) as [b Hb]. rewrite E in Hb.
  discriminate.
Qed.

(** ** Lockout tracker *)

Lemma Qgtb_true (a b : Q) : Qgtb a b = true <-> (b < a)%Q.
Proof.
  unfold Qgtb. rewrite negb_true_iff, <- not_true_iff_false, Qle_bool_iff.
  split; [apply Qnot_le_lt | apply Qlt_not_le].
Qed.

Lemma Qgtb_false (a b : Q) : Qgtb a b = false <-> (a <= b)%Q.
Proof. unfold Qgtb. now rewrite negb_false_iff, Qle_bool_iff. Qed.

Section Tracker.

Variable u : list N.

Lemma increment_count (now : Q) (m : LoginLockoutManager) :
  failed_attempts (increment_failed_attempts now u m) !! u
  = Some (attempts_of u m + 1)%Z.
Proof.
  unfold increment_failed_attempts, attempts_of.
  destruct (_ >=? _)%Z; simpl; apply lookup_insert_eq.
Qed.

Lemma increment_attempts_of (now : Q) (m : LoginLockoutManager) :
  attempts_of u (increment_failed_attempts now u m)
  = (attempts_of u m + 1)%Z.
Proof. unfold attempts_of at 1. now rewrite increment_count. Qed.

Lemma increment_locks (now : Q) (m : LoginLockoutManager) :
  (MAX_ATTEMPTS <= attempts_of u m + 1)%Z ->
  lockout_expiry (increment_failed_attempts now u m) !! u
  = Some (now + LOCKOUT_DURATION)%Q.
Proof.
  intros H. unfold increment_failed_attempts. fold (attempts_of u m).
  destruct (Z.geb_spec (attempts_of u m + 1) MAX_ATTEMPTS); [|lia].
  simpl. apply lookup_insert_eq.
Qed.

Lemma increment_below (now : Q) (m : LoginLockoutManager) :
  (attempts_of u m + 1 < MAX_ATTEMPTS)%Z ->
  lockout_expiry (increment_failed_attempts now u m) = lockout_expiry m.
Proof.
  intros H. unfold increment_failed_attempts. fold (attempts_of u m).
  destruct (Z.geb_spec (attempts_of u m + 1) MAX_ATTEMPTS); [lia|].
  reflexivity.
Qed.

Lemma increment_other (now : Q) (v : list N) (m : LoginLockoutManager) :
  v <> u ->
  failed_attempts (increment_failed_attempts now v m) !! u
  = failed_attempts m !! u /\
  lockout_expiry (increment_failed_attempts now v m) !! u
  = lockout_expiry m !! u.
Proof.
  intros H. unfold increment_failed_attempts.
  destruct (_ >=? _)%Z; simpl; rewrite ?lookup_insert_ne by exact H; auto.
Qed.

Lemma clear_lockout_clear (m : LoginLockoutManager) :
  Clear u (clear_lockout u m).
Proof. split; simpl; apply lookup_delete_eq. Qed.

Lemma clear_lockout_other (v : list N) (m : LoginLockoutManager) :
  v <> u ->
  failed_attempts (clear_lockout v m) !! u = failed_attempts m !! u /\
  lockout_expiry (clear_lockout v m) !! u = lockout_expiry m !! u.
Proof. intros H. simpl. now rewrite !lookup_delete_ne by exact H. Qed.

Lemma is_locked_out_unlocked (now : Q) (m : LoginLockoutManager) :
  lockout_expiry m !! u = None -> is_locked_out now u m = (false, m).
Proof. intros H. unfold is_locked_out. now rewrite H. Qed.

Lemma is_locked_out_pending (now e : Q) (m : LoginLockoutManager) :
  LockedOut u e m -> (now <= e)%Q -> is_locked_out now u m = (true, m).
Proof.
  intros H Hle. unfold is_locked_out. rewrite H.
  now rewrite (proj2 (Qgtb_false now e) Hle).
Qed.

Lemma is_locked_out_expired (now e : Q) (m : LoginLockoutManager) :
  LockedOut u e m -> (e < now)%Q ->
  is_locked_out now u m = (false, clear_lockout u m).
Proof.
  intros H Hlt. unfold is_locked_out. rewrite H.
  now rewrite (proj2 (Qgtb_true now e) Hlt).
Qed.

Lemma is_locked_out_other (now : Q) (v : list N) (m : LoginLockoutManager) :
  v <> u ->
  failed_attempts (snd (is_locked_out now v m)) !! u
  = failed_attempts m !! u /\
  lockout_expiry (snd (is_locked_out now v m)) !! u
  = lockout_expiry m !! u.
Proof.
  intros H. unfold is_locked_out.
  destruct (lockout_expiry m !! v); [|auto].
  destruct (Qgtb now q); [|auto]. now apply clear_lockout_other.
Qed.

(** While [u] has no expiry, calls that are quiet for [u] leave its entries
    alone. *)
Lemma quiet_call (now : Q) (c : tracker_call) (m : LoginLockoutManager) :
  quiet u c -> lockout_expiry m !! u = None ->
  failed_attempts (run_call now c m) !! u = failed_attempts m !! u /\
  lockout_expiry (run_call now c m) !! u = None.
Proof.
  intros Hq He. destruct c as [v|v|v|v]; cbn [run_call quiet] in *.
  - destruct (increment_other now v m Hq) as [-> ->]. auto.
  - destruct (clear_lockout_other v m Hq) as [-> ->]. auto.
  - destruct (decide (v = u)) as [->|Hv].
    + rewrite is_locked_out_unlocked by exact He. auto.
    + destruct (is_locked_out_other now v m Hv) as [-> ->]. auto.
  - auto.
Qed.

Lemma quiet_calls (h : list (Q * tracker_call)) (m : LoginLockoutManager) :
  Forall (fun tc => quiet u (snd tc)) h -> lockout_expiry m !! u = None ->
  failed_attempts (run_calls h m) !! u = failed_attempts m !! u /\
  lockout_expiry (run_calls h m) !! u = None.
Proof.
  intros Hq. revert m. induction Hq as [|[t c] h Hc _ IH]; intros m He.
  - auto.
  - change (run_calls ((t, c) :: h) m) with (run_calls h (run_call t c m)).
    cbn [snd] in Hc. destruct (quiet_call t c m Hc He) as [Hf He'].
    destruct (IH _ He') as [-> ->]. auto.
Qed.

Lemma quiet_calls_attempts (h : list (Q * tracker_call))
    (m : LoginLockoutManager) :
  Forall (fun tc => quiet u (snd tc)) h -> lockout_expiry m !! u = None ->
  attempts_of u (run_calls h m) = attempts_of u m.
Proof.
  intros Hq He. unfold attempts_of.
  now destruct (quiet_calls h m Hq He) as [-> _].
Qed.

Lemma remaining_nonneg (now : Q) (m : LoginLockoutManager) :
  (0 <= get_remaining_lockout_minutes now u m)%Z.
Proof.
  unfold get_remaining_lockout_minutes.
  destruct (lockout_expiry m !! u); [|lia].
  destruct (Qeq_bool q 0); lia.
Qed.

Lemma remaining_unlocked (now : Q) (m : LoginLockoutManager) :
  lockout_expiry m !! u = None -> get_remaining_lockout_minutes now u m = 0%Z.
Proof. intros H. unfold get_remaining_lockout_minutes. now rewrite H. Qed.

End Tracker.

Lemma tracker_inv_mono (t t' : Q) (m : LoginLockoutManager) :
  (t <= t')%Q -> tracker_inv t m -> tracker_inv t' m.
Proof.
  intros Hle H u. destruct (H u) as [H1 H2]. split; [exact H1|].
  intros e He. destruct (H2 e He) as [Hn Hb]. split; [exact Hn|].
  unfold LOCKOUT_DURATION in *. lra.
Qed.

Lemma tracker_inv_clear (t : Q) (v : list N) (m : LoginLockoutManager) :
  tracker_inv t m -> tracker_inv t (clear_lockout v m).
Proof.
  intros H u. destruct (decide (v = u)) as [->|Hv].
  - destruct (clear_lockout_clear u m) as [Hf He].
    split; intros ?; rewrite ?Hf, ?He; discriminate.
  - destruct (clear_lockout_other u v m Hv) as [Hf He].
    unfold attempts_of. rewrite Hf, He. apply H.
Qed.

Lemma tracker_inv_increment (t : Q) (v : list N) (m : LoginLockoutManager) :
  tracker_inv t m -> tracker_inv t (increment_failed_attempts t v m).
Proof.
  intros H u. destruct (decide (v = u)) as [->|Hv].
  - assert (Hpos : (0 <= attempts_of u m)%Z).
    { unfold attempts_of. destruct (failed_attempts m !! u) eqn:E; simpl;
        [|lia]. apply (H u) in E. lia. }
    rewrite increment_attempts_of, increment_count. split.
    + intros n [= <-]. lia.
    + intros e He.
      destruct (Z_lt_le_dec (attempts_of u m + 1) MAX_ATTEMPTS) as [Hlt|Hge].
      * rewrite increment_below in He by exact Hlt.
        apply (H u) in He as [Hn _]. lia.
      * rewrite increment_locks in He by exact Hge.
        injection He as <-. split; [exact Hge | lra].
  - destruct (increment_other u t v m Hv) as [Hf He].
    unfold attempts_of. rewrite Hf, He. apply H.
Qed.

Lemma tracker_inv_call (t : Q) (c : tracker_call) (m : LoginLockoutManager) :
  tracker_inv t m -> tracker_inv t (run_call t c m).
Proof.
  intros H. destruct c as [v|v|v|v]; cbn [run_call].
  - now apply tracker_inv_increment.
  - now apply tracker_inv_clear.
  - unfold is_locked_out. destruct (lockout_expiry m !! v); [|exact H].
    destruct (Qgtb t q); [|exact H]. now apply tracker_inv_clear.
  - exact H.
Qed.

Lemma reachable_inv (t : Q) (m : LoginLockoutManager) :
  reachable t m -> tracker_inv t m.
Proof.
  induction 1 as [t|t now c m _ IH Hle].
  - intros u. split; intros ?; simpl; rewrite lookup_empty; discriminate.
  - apply tracker_inv_call. now apply (tracker_inv_mono t).
Qed.

Lemma Clear_attempts (u : pystr) (m : LoginLockoutManager) :
  Clear u m -> attempts_of u m = 0%Z.
Proof. intros [H _]. unfold attempts_of. now rewrite H. Qed.

(** C2. From the Clear state, three recorded failures of [u], with any calls
    in between that are neither a failure nor a success of [u], lock [u]
    out: [is_locked_out] answers [True] as long as the clock has not passed
    the expiry, and it answers [False] after the first and the second
    failure. One [clear_lockout] brings any state back to Clear, with the
    counter read as zero and [is_locked_out] answering [False]. *)
Theorem three_failures_lock_out (u : pystr) (m : LoginLockoutManager)
    (h1 h2 : list (Q * tracker_call)) (t1 t2 t3 now : Q) :
  Clear u m ->
  Forall (fun tc => quiet u (snd tc)) h1 ->
  Forall (fun tc => quiet u (snd tc)) h2 ->
  (now <= t3 + LOCKOUT_DURATION)%Q ->
  let m1 := increment_failed_attempts t1 u m in
  let m2 := increment_failed_attempts t2 u (run_calls h1 m1) in
  let m3 := increment_failed_attempts t3 u (run_calls h2 m2) in
  is_locked_out now u m1 = (false, m1) /\
  is_locked_out now u m2 = (false, m2) /\
  is_locked_out now u m3 = (true, m3) /\
  forall (m' : LoginLockoutManager) (now' : Q),
    let m0 := clear_lockout u m' in
    Clear u m0 /\ attempts_of u m0 = 0%Z /\
    is_locked_out now' u m0 = (false, m0).
Proof.
  intros Hc Hq1 Hq2 Hnow m1 m2 m3.
  assert (A0 : attempts_of u m = 0%Z) by now apply Clear_attempts.
  assert (E1 : lockout_expiry m1 !! u = None).
  { unfold m1. rewrite increment_below by (rewrite A0; unfold MAX_ATTEMPTS; lia).
    apply Hc. }
  assert (A1 : attempts_of u (run_calls h1 m1) = 1%Z).
  { rewrite quiet_calls_attempts by assumption.
    unfold m1. rewrite increment_attempts_of, A0. reflexivity. }
  assert (E2 : lockout_expiry m2 !! u = None).
  { unfold m2. rewrite increment_below by (rewrite A1; unfold MAX_ATTEMPTS; lia).
    now apply quiet_calls. }
  assert (A2 : attempts_of u (run_calls h2 m2) = 2%Z).
  { rewrite quiet_calls_attempts by assumption.
    unfold m2. rewrite increment_attempts_of, A1. reflexivity. }
  repeat split.
  - now apply is_locked_out_unlocked.
  - now apply is_locked_out_unlocked.
  - apply (is_locked_out_pending u now (t3 + LOCKOUT_DURATION)); [|exact Hnow].
    apply increment_locks. rewrite A2. unfold MAX_ATTEMPTS. lia.
  - apply clear_lockout_clear.
  - apply clear_lockout_clear.
  - apply Clear_attempts, clear_lockout_clear.
  - apply is_locked_out_unlocked, clear_lockout_clear.
Qed.

(** C5. A locked-out identity whose expiry [t] lies strictly before the
    clock reading is answered [False] by [is_locked_out], which puts it back
    into the Clear state; [get_remaining_lockout_minutes] then answers 0;
    and that function never answers a negative number. *)
Theorem lockout_expires_lazily (u : pystr) (m : LoginLockoutManager)
    (t now : Q) :
  LockedOut u t m -> (t < now)%Q ->
  fst (is_locked_out now u m) = false /\
  Clear u (snd (is_locked_out now u m)) /\
  (forall now' : Q,
     get_remaining_lockout_minutes now' u (snd (is_locked_out now u m))
     = 0%Z) /\
  (forall (m' : LoginLockoutManager) (u' : pystr) (now' : Q),
     (0 <= get_remaining_lockout_minutes now' u' m')%Z).
Proof.
  intros HL Hlt. rewrite (is_locked_out_expired u now t m HL Hlt).
  cbn [fst snd]. repeat split.
  - apply clear_lockout_clear.
  - apply clear_lockout_clear.
  - intros now'. apply remaining_unlocked, clear_lockout_clear.
  - intros m' u' now'. apply remaining_nonneg.
Qed.

(** While the lockout lasts, the minutes are the truncated sixtieth of the
    seconds left. *)
Lemma remaining_pending (u : pystr) (m : LoginLockoutManager) (e now : Q) :
  LockedOut u e m -> ~ (e == 0)%Q -> (now <= e)%Q ->
  get_remaining_lockout_minutes now u m = py_int ((e - now) / 60)%Q.
Proof.
  intros HL Hz Hle. unfold get_remaining_lockout_minutes. rewrite HL.
  destruct (Qeq_bool e 0) eqn:E; [apply Qeq_bool_iff in E; contradiction|].
  apply Z.max_r. unfold py_int. apply Z.quot_pos; [|lia].
  assert (H : (0 <= (e - now) / 60)%Q).
  { apply Qle_shift_div_l; [reflexivity | lra]. }
  destruct ((e - now) / 60)%Q as [n d]. unfold Qle in H.
  cbn [Qnum Qden] in *. lia.
Qed.

(** C9 (as amended). When [increment_failed_attempts] makes the count reach
    [MAX_ATTEMPTS], the identity gets the expiry [now + LOCKOUT_DURATION]
    and the failed-attempt count is kept next to it, at the value just
    reached. *)
Theorem lockout_keeps_count (u : pystr) (m : LoginLockoutManager) (now : Q) :
  (MAX_ATTEMPTS <= attempts_of u m + 1)%Z ->
  LockedOut u (now + LOCKOUT_DURATION) (increment_failed_attempts now u m) /\
  failed_attempts (increment_failed_attempts now u m) !! u
  = Some (attempts_of u m + 1)%Z.
Proof.
  intros H. split; [now apply increment_locks | apply increment_count].
Qed.

Lemma three_failures_reachable : reachable 2 three_failures.
Proof.
  unfold three_failures, two_failures.
  apply (reach_call 1); [|discriminate].
  apply (reach_call 0); [|discriminate].
  apply (reach_call 0); [|discriminate].
  apply reach_new.
Qed.

Lemma lockout_keeps_count_witness :
  (MAX_ATTEMPTS <= attempts_of alice two_failures + 1)%Z /\
  LockedOut alice (2 + LOCKOUT_DURATION) three_failures /\
  failed_attempts three_failures !! alice = Some 3%Z.
Proof.
  assert (H : (MAX_ATTEMPTS <= attempts_of alice two_failures + 1)%Z)
    by (vm_compute; discriminate).
  split; [exact H|].
  exact (lockout_keeps_count alice two_failures 2 H).
Defined.

(** C9 as the specification words it fails: after the failure that locks
    alice out, her count is still in [failed_attempts]. *)
Lemma lockout_count_not_dropped :
  lockout_expiry three_failures !! alice = Some (2 + LOCKOUT_DURATION)%Q /\
  failed_attempts three_failures !! alice = Some 3%Z /\
  ~ (forall (u : pystr) (m : LoginLockoutManager) (now : Q),
       (MAX_ATTEMPTS <= attempts_of u m + 1)%Z ->
       failed_attempts (increment_failed_attempts now u m) !! u = None).
Proof.
  assert (H : (MAX_ATTEMPTS <= attempts_of alice two_failures + 1)%Z)
    by (vm_compute; discriminate).
  split; [exact (increment_locks alice 2 two_failures H)|].
  split; [exact (increment_count alice 2 two_failures)|].
  intros C. specialize (C alice two_failures 2%Q H).
  rewrite increment_count in C. discriminate.
Qed.

(** C10 (as amended). In a state reached by calls with a non-decreasing
    clock, a further recorded failure of a locked-out identity whose expiry
    has not passed, made at a clock reading that is not earlier than those
    of the earlier calls, adds one to the count that was kept (which is at
    least [MAX_ATTEMPTS]) and overwrites the expiry with that reading plus
    [LOCKOUT_DURATION], which is not earlier than the expiry it replaces.
    The order of the two expiries is that of the clock readings they were
    computed from, which the rounding of the float sum preserves. *)
Theorem failure_while_locked_overwrites (u : pystr)
    (m : LoginLockoutManager) (t e now : Q) :
  reachable t m -> LockedOut u e m -> (now <= e)%Q -> (t <= now)%Q ->
  (MAX_ATTEMPTS <= attempts_of u m)%Z /\
  attempts_of u (increment_failed_attempts now u m)
  = (attempts_of u m + 1)%Z /\
  LockedOut u (now + LOCKOUT_DURATION) (increment_failed_attempts now u m) /\
  (e <= now + LOCKOUT_DURATION)%Q.
Proof.
  intros Hr HL Hun Hlater.
  destruct (reachable_inv t m Hr u) as [_ Hinv].
  destruct (Hinv e HL) as [Hn Hb].
  split; [exact Hn|]. split; [apply increment_attempts_of|]. split.
  - apply increment_locks. lia.
  - unfold LOCKOUT_DURATION in *. lra.
Qed.

Lemma failure_while_locked_overwrites_witness :
  reachable 2 three_failures /\
  LockedOut alice 302 three_failures /\ (3 <= 302)%Q /\ (2 <= 3)%Q /\
  attempts_of alice (increment_failed_attempts 3 alice three_failures) = 4%Z /\
  LockedOut alice 303 (increment_failed_attempts 3 alice three_failures) /\
  (302 <= 303)%Q.
Proof.
  assert (HL : LockedOut alice 302 three_failures) by reflexivity.
  assert (H1 : (3 <= 302)%Q) by discriminate.
  assert (H2 : (2 <= 3)%Q) by discriminate.
  destruct (failure_while_locked_overwrites alice three_failures 2 302 3
              three_failures_reachable HL H1 H2) as (_ & Ha & Hl & Hle).
  repeat split; try assumption; try exact three_failures_reachable.
Defined.

(** C10 as the specification words it fails: the lockout is not always
    extended beyond its expiry. A fourth failure of alice at the clock
    reading of the third one leaves her expiry at 302, and one at an earlier
    reading, [time.time()] being the wall clock, moves it back to 301. *)
Lemma failure_while_locked_not_extended :
  LockedOut alice 302 three_failures /\
  LockedOut alice 302 (increment_failed_attempts 2 alice three_failures) /\
  LockedOut alice 301 (increment_failed_attempts 1 alice three_failures) /\
  ~ (forall (u : pystr) (m : LoginLockoutManager) (t e now : Q),
       reachable t m -> LockedOut u e m -> (now <= e)%Q ->
       exists e' : Q,
         LockedOut u e' (increment_failed_attempts now u m) /\ (e < e')%Q).
Proof.
  assert (HL : LockedOut alice 302 three_failures) by reflexivity.
  assert (H2 : LockedOut alice 302
                 (increment_failed_attempts 2 alice three_failures))
    by reflexivity.
  assert (H1 : LockedOut alice 301
                 (increment_failed_attempts 1 alice three_failures))
    by reflexivity.
  split; [exact HL|]. split; [exact H2|]. split; [exact H1|].
  intros C.
  assert (Hun : (2 <= 302)%Q) by discriminate.
  destruct (C alice three_failures 2%Q 302%Q 2%Q three_failures_reachable HL
              Hun)
    as (e' & He' & Hlt).
  unfold LockedOut in H2, He'. rewrite H2 in He'.
  injection He' as <-. revert Hlt. apply Qlt_irrefl.
Qed.

Lemma three_failures_lock_out_witness :
  Clear alice new_manager /\
  (10 <= 4 + LOCKOUT_DURATION)%Q /\
  fst (is_locked_out 10 alice
         (run_calls [(0%Q, RecordFailure alice); (1%Q, IsLockedOut alice);
                     (1%Q, RecordFailure bob); (2%Q, RecordFailure alice);
                     (3%Q, RemainingMinutes alice);
                     (4%Q, RecordFailure alice)] new_manager)) = true.
Proof.
  assert (Hc : Clear alice new_manager) by (split; reflexivity).
  assert (Ht : (10 <= 4 + LOCKOUT_DURATION)%Q) by discriminate.
  assert (Hq1 : Forall (fun tc => quiet alice (snd tc))
                  [(1%Q, IsLockedOut alice); (1%Q, RecordFailure bob)]).
  { repeat constructor. discriminate. }
  assert (Hq2 : Forall (fun tc => quiet alice (snd tc))
                  [(3%Q, RemainingMinutes alice)]).
  { repeat constructor. }
  destruct (three_failures_lock_out alice new_manager _ _ 0 2 4 10
              Hc Hq1 Hq2 Ht) as (_ & _ & H & _).
  split; [exact Hc|]. split; [exact Ht|].
  exact (f_equal fst H).
Defined.

Lemma lockout_expires_lazily_witness :
  LockedOut alice 302 three_failures /\ (302 < 303)%Q /\
  fst (is_locked_out 303 alice three_failures) = false /\
  Clear alice (snd (is_locked_out 303 alice three_failures)) /\
  get_remaining_lockout_minutes 303 alice
    (snd (is_locked_out 303 alice three_failures)) = 0%Z.
Proof.
  assert (HL : LockedOut alice 302 three_failures) by reflexivity.
  assert (Hlt : (302 < 303)%Q) by reflexivity.
  destruct (lockout_expires_lazily alice three_failures 302 303 HL Hlt)
    as (Hf & Hc & Hr & _).
  split; [exact HL|]. split; [exact Hlt|]. split; [exact Hf|].
  split; [exact Hc | apply Hr].
Defined.

(** The minutes shown while alice is locked out. *)
Example remaining_minutes_samples :
  get_remaining_lockout_minutes 2 alice three_failures = 5%Z /\
  get_remaining_lockout_minutes (5 # 2) alice three_failures = 4%Z /\
  get_remaining_lockout_minutes 400 alice three_failures = 0%Z /\
  get_remaining_lockout_minutes 2 bob three_failures = 0%Z.
Proof. repeat split; vm_compute; reflexivity. Qed.

(** ** Reset code generator *)

Lemma alphabet_length : length alphabet = 36%nat.
Proof. reflexivity. Qed.

(** The alphabet is the capital letters and the digits. *)
Lemma alphabet_spec (c : N) :
  In c alphabet <-> (65 <= c <= 90) \/ (48 <= c <= 57).
Proof.
  split.
  - intros H. vm_compute in H.
    repeat (destruct H as [H|H]; [subst c; lia|]). destruct H.
  - intros [[H1 H2]|[H1 H2]].
    + assert (E : c = 65 + N.of_nat (N.to_nat (c - 65))) by lia.
      assert (B : (N.to_nat (c - 65) < 26)%nat) by lia.
      rewrite E. generalize dependent (N.to_nat (c - 65)). intros k _ B.
      do 26 (destruct k as [|k];
        [vm_compute; repeat (first [left; reflexivity | right])|]).
      lia.
    + assert (E : c = 48 + N.of_nat (N.to_nat (c - 48))) by lia.
      assert (B : (N.to_nat (c - 48) < 10)%nat) by lia.
      rewrite E. generalize dependent (N.to_nat (c - 48)). intros k _ B.
      do 10 (destruct k as [|k];
        [vm_compute; repeat (first [left; reflexivity | right])|]).
      lia.
Qed.

Lemma choice_in (seq : pystr) (r : nat) :
  (r < length seq)%nat -> In (choice seq r) seq.
Proof. intros H. now apply nth_In. Qed.

Lemma upper_char_alphabet (c : N) :
  In c alphabet -> Sample.upper_char c = c.
Proof.
  intros H. apply alphabet_spec in H. unfold Sample.upper_char.
  destruct (N.leb_spec 97 c); [|reflexivity].
  destruct (N.leb_spec c 122); [|reflexivity]. lia.
Qed.

(** C6. For every length [n] and all draws [secrets.choice] may make,
    [generate_reset_code n] is a string of exactly [n] characters, each of
    them one of the 36 symbols A-Z, 0-9; upper-casing leaves it as it
    is. *)
Theorem generate_reset_code_shape (draw : nat -> nat) (n : nat) :
  (forall i, draw i < length alphabet)%nat ->
  length (generate_reset_code draw (Z.of_nat n)) = n /\
  Forall (fun c => In c alphabet /\ ((65 <= c <= 90) \/ (48 <= c <= 57)))
         (generate_reset_code draw (Z.of_nat n)) /\
  Sample.upper (generate_reset_code draw (Z.of_nat n))
  = generate_reset_code draw (Z.of_nat n).
Proof.
  intros Hd. unfold generate_reset_code. rewrite Nat2Z.id.
  assert (Hall : Forall (fun c => In c alphabet)
                   (List.map (fun i => choice alphabet (draw i))
                             (seq 0 n))).
  { apply List.Forall_forall. intros c Hc.
    apply List.in_map_iff in Hc as (i & <- & _). apply choice_in, Hd. }
  split; [|split].
  - now rewrite length_map, length_seq.
  - eapply List.Forall_impl; [|exact Hall].
    intros c Hc. split; [exact Hc | now apply alphabet_spec].
  - unfold Sample.upper. induction Hall as [|c l Hc _ IH]; simpl.
    + reflexivity.
    + now rewrite (upper_char_alphabet c Hc), IH.
Qed.

Lemma sample_draw_lt (i : nat) : (sample_draw i < length alphabet)%nat.
Proof. unfold sample_draw. rewrite alphabet_length. apply Nat.mod_upper_bound. lia. Qed.

Lemma generate_reset_code_shape_witness :
  (forall i, sample_draw i < length alphabet)%nat /\
  length (generate_reset_code sample_draw 6) = 6%nat /\
  Forall (fun c => In c alphabet /\ ((65 <= c <= 90) \/ (48 <= c <= 57)))
         (generate_reset_code sample_draw 6).
Proof.
  destruct (generate_reset_code_shape sample_draw 6 sample_draw_lt)
    as (Hl & Ha & _).
  split; [exact sample_draw_lt|]. split; [exact Hl | exact Ha].
Defined.

Example generate_reset_code_sample :
  generate_reset_code sample_draw 6 = py "DKRY5C".
Proof. reflexivity. Qed.

(** An argument that is no length, a negative integer, gives the empty
    code: [range] is empty. *)
Lemma generate_reset_code_negative (draw : nat -> nat) (n : Z) :
  (n <= 0)%Z -> generate_reset_code draw n = [].
Proof.
  intros H. unfold generate_reset_code.
  now replace (Z.to_nat n) with 0%nat by lia.
Qed.

(** The namesake in utils/auth.py is another function: lower-case
    hexadecimal text of [2 * (length // 2)] characters. *)
Lemma auth_generate_reset_code_hex (entropy : pybytes) (n : Z) (code : pystr) :
  auth_generate_reset_code entropy n = Ok code ->
  Forall is_hex code /\ (length code <= 2 * Z.to_nat (n / 2))%nat.
Proof.
  unfold auth_generate_reset_code, token_hex.
  destruct (n / 2 <? 0)%Z; [discriminate|]. intros [= <-]. split.
  - apply hex_of_bytes_is_hex.
  - rewrite hex_of_bytes_length, length_firstn. lia.
Qed.

Example auth_generate_reset_code_sample :
  auth_generate_reset_code [0xAB; 0xCD; 0xEF; 0x01] 7 = Ok (py "abcdef").
Proof. reflexivity. Qed.

(** ** Shape validation of the login form *)

Lemma str_falsy_true (s : pystr) : str_falsy s = true <-> s = [].
Proof. destruct s; simpl; split; congruence. Qed.

Lemma validate_login_input_invalid (username password : pystr) :
  shape_invalid username password <->
  fst (validate_login_input username password) = false.
Proof.
  unfold shape_invalid, validate_login_input.
  destruct (str_falsy username) eqn:Eu.
  { simpl. apply str_falsy_true in Eu. tauto. }
  destruct (str_falsy password) eqn:Ep.
  { simpl. apply str_falsy_true in Ep. tauto. }
  assert (Hu : username <> []) by (rewrite <- str_falsy_true; congruence).
  assert (Hp : password <> []) by (rewrite <- str_falsy_true; congruence).
  cbn [orb].
  destruct (str_contains at_sign username); cbn [negb orb fst].
  2: { tauto. }
  destruct (str_contains full_stop username); cbn [negb orb fst].
  2: { tauto. }
  destruct (Nat.ltb_spec (length password) 8); cbn [fst].
  - tauto.
  - split; [|discriminate].
    intros [?|[?|[?|[?|?]]]]; try contradiction; try discriminate. lia.
Qed.

Lemma validate_login_input_valid (username password : pystr) :
  fst (validate_login_input username password) = true ->
  validate_login_input username password = (true, []).
Proof.
  unfold validate_login_input.
  destruct (_ || _); [discriminate|].
  destruct (_ || _); [discriminate|].
  destruct (_ <? _)%nat; [discriminate | reflexivity].
Qed.

Example validate_short_password :
  validate_login_input (py "user@example.com") (py "short")
  = (false, msg_password_length).
Proof. reflexivity. Qed.

(** C7. When the identity (the stripped, lower-cased text of the e-mail
    field) or the password has an invalid shape, [_on_login_clicked]
    returns with the validation error and nothing else happens: the data
    store is the same, its journal included, so that no statement was sent,
    and the lockout manager and the pending attempt are the same. *)
Theorem invalid_input_touches_nothing `{PyLib}
    (username_text password_text : pystr) (t1 t2 : Q) (self : LoginScreen) :
  shape_invalid (str_lower (str_strip username_text)) password_text ->
  exists (error : pystr) (self' : LoginScreen),
    validate_login_input (str_lower (str_strip username_text)) password_text
    = (false, error) /\
    _on_login_clicked username_text password_text t1 t2 self
    = (Ok tt, self') /\
    db self' = db self /\
    journal (db self') = journal (db self) /\
    lockout_manager self' = lockout_manager self /\
    _pending self' = _pending self /\
    _login_timer self' = _login_timer self /\
    _is_logging_in self' = _is_logging_in self /\
    (_is_logging_in self = false ->
     shown self' = shown self ++ [ValidationErrorBox error]).
Proof.
  intros Hbad. apply validate_login_input_invalid in Hbad.
  destruct (validate_login_input (str_lower (str_strip username_text))
              password_text) as [valid error] eqn:E.
  cbn [fst] in Hbad. subst valid. exists error.
  unfold _on_login_clicked. rewrite E.
  destruct (_is_logging_in self) eqn:L.
  - exists self. repeat split; try reflexivity; try assumption. discriminate.
  - cbn [negb]. eexists. split; [reflexivity|]. split; [reflexivity|].
    cbn. repeat split; try reflexivity. exact L.
Qed.

Lemma invalid_input_touches_nothing_witness :
  shape_invalid (Sample.lower (Sample.strip (py " User@Example.com ")))
                (py "short") /\
  exists self' : LoginScreen,
    @_on_login_clicked Sample.lib
      (py " User@Example.com ") (py "short") 0 0 sample_login
    = (Ok tt, self') /\
    journal (db self') = [] /\
    lockout_manager self' = new_manager /\
    shown self' = [ValidationErrorBox msg_password_length].
Proof.
  assert (Hbad : shape_invalid
            (Sample.lower (Sample.strip (py " User@Example.com ")))
            (py "short")).
  { do 4 right. simpl. lia. }
  split; [exact Hbad|].
  destruct (invalid_input_touches_nothing (H := Sample.lib)
              (py " User@Example.com ") (py "short") 0 0 sample_login Hbad)
    as (error & self' & Hv & Hrun & _ & Hj & Hm & _ & _ & _ & Hs).
  exists self'. split; [exact Hrun|]. split; [exact Hj|].
  split; [exact Hm|]. rewrite (Hs eq_refl).
  vm_compute in Hv. injection Hv as <-. reflexivity.
Defined.

(** ** Reset tokens *)

Section ResetTokens.

Context `{PyLib}.

Lemma get_password_reset_token_run (tok : pystr) (d : Database) :
  get_password_reset_token tok d =
  if outage d (length (journal d)) then
    (Raise DatabaseError, journalled (SelectToken (token_key tok)) false d)
  else
    (Ok (select_token (password_reset_tokens d) (token_key tok)),
     journalled (SelectToken (token_key tok)) true d).
Proof.
  unfold get_password_reset_token, bind, execute, token_key.
  destruct (outage d (length (journal d))); reflexivity.
Qed.

Lemma update_user_password_run (uid : Z) (h : pystr) (d : Database) :
  update_user_password uid h d =
  if outage d (length (journal d)) then
    (Ok false, journalled (UpdatePassword uid h) false d)
  else
    (Ok true,
     put_users (updated_users uid h) (journalled (UpdatePassword uid h) true d)).
Proof.
  unfold update_user_password, bind, execute.
  destruct (outage d (length (journal d))); reflexivity.
Qed.

Lemma mark_token_used_run (tid : Z) (d : Database) :
  mark_token_used tid d =
  if outage d (length (journal d)) then
    (Ok false, journalled (UpdateTokenUsed tid) false d)
  else
    (Ok true,
     put_tokens (used_tokens tid) (journalled (UpdateTokenUsed tid) true d)).
Proof.
  unfold mark_token_used, db_mark_token_used, bind, execute.
  destruct (outage d (length (journal d))); reflexivity.
Qed.

Lemma reset_password_run (rnd : pybytes) (uid : Z) (pw : pystr)
    (d : Database) :
  reset_password rnd uid pw d =
  match hash_password rnd pw with
  | Raise e => (Raise e, d)
  | Ok h => update_user_password uid h d
  end.
Proof.
  unfold reset_password, bind, lift, ret.
  destruct (hash_password rnd pw) as [h|e]; [|reflexivity].
  now destruct (update_user_password uid h d) as [[b|e] d'].
Qed.

Lemma validate_reset_token_run (tok : pystr) (now : Z) (d : Database) :
  validate_reset_token tok now d =
  let key := token_key (token_key tok) in
  if outage d (length (journal d)) then
    (Raise DatabaseError, journalled (SelectToken key) false d)
  else
    (verdict (password_reset_tokens d) key now,
     journalled (SelectToken key) true d).
Proof.
  unfold validate_reset_token, bind. rewrite get_password_reset_token_run.
  fold (token_key tok). cbn zeta.
  destruct (outage d (length (journal d))); [reflexivity|].
  unfold verdict, expiry_of. cbn [password_reset_tokens journalled].
  destruct (select_token _ _) as [row|]; [|reflexivity].
  destruct (is_used row); [reflexivity|].
  unfold lift, ret.
  destruct (match expires_at row with
            | AsDatetime t => Ok t
            | AsText s => fromisoformat s
            end) as [t|e]; cbn [rbind]; [|reflexivity].
  now destruct (t <? now)%Z.
Qed.

End ResetTokens.

(** C3. [validate_reset_token] looks the token up under its upper-cased
    form ([key]: stripped and upper-cased once by the function and once more
    by [get_password_reset_token]), so that two inputs that differ by their
    casing only get the same answer; whenever the SELECT goes through it answers [False] if no row
    is found, if the row is used, or if the row expires before [now], and
    [True] for a row that is unused and not expired; and it writes nothing:
    both tables are as before and the one statement sent is the SELECT. *)
Theorem validate_reset_token_spec `{PyLib} (tok : pystr) (now : Z)
    (d : Database) :
  let key := token_key (token_key tok) in
  let rows := password_reset_tokens d in
  let answer := validate_reset_token tok now d in
  (users (snd answer) = users d /\
   password_reset_tokens (snd answer) = rows /\
   exists ok, journal (snd answer) = journal d ++ [(SelectToken key, ok)]) /\
  (forall tok' : pystr,
     token_key tok' = token_key tok ->
     validate_reset_token tok' now d = answer) /\
  (outage d (length (journal d)) = false ->
   (select_token rows key = None -> fst answer = Ok false) /\
   (forall row, select_token rows key = Some row ->
      is_used row = true -> fst answer = Ok false) /\
   (forall row t, select_token rows key = Some row ->
      is_used row = false -> expiry_of row = Ok t -> (t < now)%Z ->
      fst answer = Ok false) /\
   (forall row t, select_token rows key = Some row ->
      is_used row = false -> expiry_of row = Ok t -> (now <= t)%Z ->
      fst answer = Ok true)).
Proof.
  intros key rows answer. subst answer.
  rewrite validate_reset_token_run. fold key. cbn zeta.
  split; [|split].
  - destruct (outage d (length (journal d))); cbn; eauto.
  - intros tok' E. rewrite validate_reset_token_run. cbn zeta.
    now rewrite E.
  - intros ->. cbn [fst]. fold rows. unfold verdict.
    split; [|split; [|split]].
    + now intros ->.
    + intros row -> ->. reflexivity.
    + intros row t -> -> -> Hlt. cbn [rbind].
      now rewrite (proj2 (Z.ltb_lt t now) Hlt).
    + intros row t -> -> -> Hle. cbn [rbind].
      now rewrite (proj2 (Z.ltb_ge t now) Hle).
Qed.

Lemma validate_reset_token_spec_witness :
  outage (sample_db no_outage) (length (journal (sample_db no_outage)))
  = false /\
  @select_token Sample.lib (password_reset_tokens (sample_db no_outage))
    (@token_key Sample.lib (@token_key Sample.lib (py " ab12Cd ")))
  = Some sample_row /\
  (999 <= 1000)%Z /\
  fst (@validate_reset_token Sample.lib (py " ab12Cd ") 999
         (sample_db no_outage)) = Ok true.
Proof.
  assert (Ho : outage (sample_db no_outage)
                 (length (journal (sample_db no_outage))) = false)
    by reflexivity.
  assert (Hs : @select_token Sample.lib
                 (password_reset_tokens (sample_db no_outage))
                 (@token_key Sample.lib
                    (@token_key Sample.lib (py " ab12Cd ")))
               = Some sample_row) by reflexivity.
  assert (Hle : (999 <= 1000)%Z) by discriminate.
  destruct (validate_reset_token_spec (H := Sample.lib) (py " ab12Cd ") 999
              (sample_db no_outage)) as (_ & _ & Hv).
  destruct (Hv Ho) as (_ & _ & _ & Hfresh).
  split; [exact Ho|]. split; [exact Hs|]. split; [exact Hle|].
  exact (Hfresh sample_row 1000%Z Hs eq_refl eq_refl Hle).
Defined.

(** The scenarios of the specification, run on the sample store. *)
Example validate_reset_token_samples :
  let d := sample_db no_outage in
  fst (@validate_reset_token Sample.lib (py "ab12cd") 1000 d) = Ok true /\
  fst (@validate_reset_token Sample.lib (py "AB12CD") 1001 d) = Ok false /\
  fst (@validate_reset_token Sample.lib (py "ZZ12CD") 999 d) = Ok false /\
  fst (@validate_reset_token Sample.lib (py "AB12CD") 999
         (snd (mark_token_used 7 d))) = Ok false /\
  fst (@validate_reset_token Sample.lib (py "AB12CD") 999
         (sample_db (fun _ => true))) = Raise DatabaseError.
Proof. repeat split. Qed.

(** A token is created, accepted in lower case, consumed, and then
    refused. *)
Example create_validate_consume :
  let created := @create_reset_token Sample.lib sample_draw 0 42
                   (sample_db no_outage) in
  let d := snd created in
  fst created = Ok (Some (py "DKRY5C")) /\
  List.map token_id (password_reset_tokens d) = [7%Z; 8%Z] /\
  List.map expires_at (password_reset_tokens d)
  = [AsDatetime 1000; AsDatetime 300000000] /\
  fst (@validate_reset_token Sample.lib (py "dkry5c") 299999999 d)
  = Ok true /\
  fst (@validate_reset_token Sample.lib (py "DKRY5C") 299999999
         (snd (mark_token_used 8 (snd (@validate_reset_token Sample.lib
                                          (py "dkry5c") 299999999 d)))))
  = Ok false.
Proof. repeat split. Qed.

(** Whether the next statement is hit by an outage. *)
Ltac case_outage :=
  match goal with
  | |- context [if outage ?d ?n then _ else _] =>
      let O := fresh "O" in destruct (outage d n) eqn:O
  end.

(** Closes the facts about one journal shape. *)
Ltac trace_leaf :=
  split;
  [ cbn [journal reset_db reset_show journalled put_users put_tokens fst snd];
    first [ reflexivity
          | rewrite app_nil_r; reflexivity
          | rewrite <- !app_assoc; reflexivity ]
  | repeat match goal with
    | |- _ /\ _ => split
    | |- reset_trace _ => constructor
    | |- forall _, _ => intro
    | H : In _ _ |- _ => progress cbn [In app] in H
    | H : _ \/ _ |- _ => destruct H
    | H : False |- _ => destruct H
    | H : (_, _) = (_, _) |- _ => discriminate H
    | H : forall tid, ~ In (UpdateTokenUsed tid, true) _ |- _ =>
        first [ reflexivity | exfalso; eapply H; cbn [In app]; eauto 8 ]
    | H : forall uid h, ~ In (UpdatePassword uid h, true) _ |- _ =>
        first [ reflexivity | exfalso; eapply H; cbn [In app]; eauto 8 ]
    | |- _ = _ => first [ reflexivity | assumption ]
    end ].

Section ResetProtocol.

Context `{PyLib}.

Variables (token_text new_password : list N) (rnd : list N) (now : Z).

Lemma on_reset_password_trace (self self' : PasswordResetScreen)
    (r : result unit) :
  on_reset_password token_text new_password rnd now self = (r, self') ->
  exists new : list (statement * bool),
    journal (reset_db self') = journal (reset_db self) ++ new /\
    reset_trace new /\
    ((forall tid, ~ In (UpdateTokenUsed tid, true) new) ->
     password_reset_tokens (reset_db self')
     = password_reset_tokens (reset_db self)) /\
    ((forall uid h, ~ In (UpdatePassword uid h, true) new) ->
     users (reset_db self') = users (reset_db self)) /\
    (forall uid h, In (UpdatePassword uid h, false) new ->
     r = Ok tt /\
     reset_shown self'
     = reset_shown self ++ [ResetErrorBox msg_reset_failed] /\
     verdict (password_reset_tokens (reset_db self))
       (token_key (token_key (str_strip token_text))) now = Ok true).
Proof.
  unfold on_reset_password.
  destruct (str_falsy (str_strip token_text) || str_falsy new_password).
  { intros [= <- <-]. exists []. trace_leaf. }
  destruct (length new_password <? 8)%nat.
  { intros [= <- <-]. exists []. trace_leaf. }
  unfold bind at 1. unfold reset_with_db at 1, zoom.
  rewrite validate_reset_token_run. cbn zeta.
  set (k := token_key (token_key (str_strip token_text))).
  case_outage.
  { intros [= <- <-]. eexists. trace_leaf. }
  destruct (verdict _ k now) as [[|]|e] eqn:V.
  2, 3: intros [= <- <-]; eexists; trace_leaf.
  cbn [negb]. unfold bind at 1. unfold reset_with_db at 1, zoom.
  rewrite get_password_reset_token_run.
  cbn [reset_db journalled journal outage password_reset_tokens].
  set (k' := token_key (str_strip token_text)).
  case_outage.
  { intros [= <- <-]. eexists. trace_leaf. }
  destruct (select_token _ k') as [row|].
  2: { intros [= <- <-]. eexists. trace_leaf. }
  unfold bind at 1. unfold reset_with_db at 1, zoom.
  rewrite reset_password_run.
  destruct (hash_password rnd new_password) as [h|e].
  2: { intros [= <- <-]. eexists. trace_leaf. }
  rewrite update_user_password_run.
  cbn [reset_db journalled journal outage password_reset_tokens].
  case_outage.
  { intros [= <- <-]. eexists. trace_leaf. }
  unfold bind. unfold reset_with_db, zoom.
  rewrite mark_token_used_run.
  cbn [reset_db journalled journal put_users outage password_reset_tokens].
  case_outage; intros [= <- <-]; eexists; trace_leaf.
Qed.

End ResetProtocol.

Lemma verdict_true `{PyLib} (rows : list token_row) (key : pystr) (now : Z) :
  verdict rows key now = Ok true ->
  exists row, select_token rows key = Some row /\ is_used row = false.
Proof.
  unfold verdict. destruct (select_token rows key) as [row|]; [|discriminate].
  destruct (is_used row) eqn:U; [discriminate|]. eauto.
Qed.

(** C4. In [on_reset_password] the token is marked used only by the statement
    that directly follows a password UPDATE that went through, and never
    when that UPDATE fails: then the journal holds no token UPDATE, the
    token table is as before, the row the code was validated against is
    still unused, and validating the same code again (at the same time, with
    the SELECT going through) answers [True]. *)
Theorem token_consumed_only_after_password_write `{PyLib}
    (token_text new_password : pystr) (rnd : pybytes) (now : Z)
    (self self' : PasswordResetScreen) (r : result unit) :
  on_reset_password token_text new_password rnd now self = (r, self') ->
  exists new : list (statement * bool),
    journal (reset_db self') = journal (reset_db self) ++ new /\
    (forall tid ok, In (UpdateTokenUsed tid, ok) new ->
       exists pre uid h,
         new = pre ++ [(UpdatePassword uid h, true);
                       (UpdateTokenUsed tid, ok)]) /\
    (forall uid h, In (UpdatePassword uid h, false) new ->
       (forall tid ok, ~ In (UpdateTokenUsed tid, ok) new) /\
       password_reset_tokens (reset_db self')
       = password_reset_tokens (reset_db self) /\
       (exists row,
          select_token (password_reset_tokens (reset_db self'))
            (token_key (token_key (str_strip token_text))) = Some row /\
          is_used row = false) /\
       (outage (reset_db self') (length (journal (reset_db self'))) = false ->
        fst (validate_reset_token (str_strip token_text) now
               (reset_db self')) = Ok true)).
Proof.
  intros Hrun.
  destruct (on_reset_password_trace _ _ _ _ _ _ _ Hrun)
    as (new & Hj & Htrace & Htok & _ & Hfail).
  exists new. split; [exact Hj|]. split.
  - intros tid ok Hin. inversion Htrace; subst; cbn [In] in Hin;
      repeat match goal with
             | H : _ \/ _ |- _ => destruct H
             | H : False |- _ => destruct H
             | H : (_, _) = (_, _) |- _ => try discriminate H
             end.
    match goal with
    | H : (UpdateTokenUsed _, _) = (UpdateTokenUsed _, _) |- _ =>
        injection H as -> ->
    end.
    now exists [(SelectToken k, true); (SelectToken k', true)], uid, h.
  - intros uid h Hin. destruct (Hfail uid h Hin) as (_ & _ & Hv).
    assert (Hnone : forall tid ok, ~ In (UpdateTokenUsed tid, ok) new).
    { intros tid ok Hin'. inversion Htrace; subst; cbn [In] in Hin, Hin';
        repeat match goal with
               | H : _ \/ _ |- _ => destruct H
               | H : False |- _ => destruct H
               | H : (_, _) = (_, _) |- _ => discriminate H
               end. }
    assert (Hsame : password_reset_tokens (reset_db self')
                    = password_reset_tokens (reset_db self))
      by (apply Htok; intros tid; apply Hnone).
    split; [exact Hnone|]. split; [exact Hsame|]. rewrite Hsame. split.
    + now apply verdict_true in Hv.
    + intros Ho. rewrite validate_reset_token_run. cbn zeta.
      rewrite Ho, Hsame. exact Hv.
Qed.

Lemma token_consumed_only_after_password_write_witness :
  @on_reset_password Sample.lib (py " ab12cd ") (py "new password")
    (repeat 1 16) 999 sample_reset
  = (fst failed_attempt, snd failed_attempt) /\
  password_reset_tokens (reset_db (snd failed_attempt)) = [sample_row] /\
  fst (@validate_reset_token Sample.lib
         (@str_strip Sample.lib (py " ab12cd ")) 999
         (reset_db (snd failed_attempt))) = Ok true.
Proof.
  assert (Hrun : @on_reset_password Sample.lib (py " ab12cd ")
                   (py "new password") (repeat 1 16) 999 sample_reset
                 = (fst failed_attempt, snd failed_attempt))
    by (unfold failed_attempt; apply surjective_pairing).
  split; [exact Hrun|].
  destruct (token_consumed_only_after_password_write (H := Sample.lib)
              _ _ _ _ _ _ _ Hrun) as (new & Hj & _ & Hfail).
  assert (Hnew : exists h, new = [(SelectToken (py "AB12CD"), true);
                                  (SelectToken (py "AB12CD"), true);
                                  (UpdatePassword 42 h, false)]).
  { eexists. apply (app_inv_head (journal (reset_db sample_reset))).
    rewrite <- Hj. vm_compute. reflexivity. }
  destruct Hnew as [h ->].
  destruct (Hfail 42%Z h) as (_ & Hsame & _ & Hretry).
  { cbn [In]. auto. }
  split; [rewrite Hsame; reflexivity|].
  apply Hretry. vm_compute. reflexivity.
Defined.

(** The same attempt with a working store consumes the token, after which
    the code is refused. *)
Example reset_then_reuse :
  let ok := @on_reset_password Sample.lib (py "ab12cd") (py "new password")
              (repeat 1 16) 999
              {| reset_db := sample_db no_outage; reset_shown := [] |} in
  fst ok = Ok tt /\
  reset_shown (snd ok) = [ResetSuccessBox; ResetSuccessful] /\
  List.map is_used (password_reset_tokens (reset_db (snd ok))) = [true] /\
  List.map snd (journal (reset_db (snd ok))) = [true; true; true; true] /\
  fst (@validate_reset_token Sample.lib (py "ab12cd") 999
         (reset_db (snd ok))) = Ok false /\
  fst (authenticate_user (py "user@example.com") (py "new password")
         (reset_db (snd ok))) = Ok (true, List.head (users (reset_db (snd ok)))).
Proof. vm_compute. repeat split. Qed.

(** ** The login screen, end to end *)

(** Three wrong passwords lock the account; the count the screen reads back
    after each failure is the one the manager kept; the right password is
    then refused without a look at the store. *)
Example three_wrong_passwords :
  let s3 := login_attempt (py "wrong password") 2
              (login_attempt (py "wrong password") 1
                 (login_attempt (py "wrong password") 0 sample_login)) in
  let s4 := login_attempt (py "correct horse") 12 s3 in
  shown s3 = [LoginFailedBox 2; LoginFailedBox 1; LockedOutBox 5] /\
  failed_attempts (lockout_manager s3) !! py "user@example.com" = Some 3%Z /\
  shown s4 = shown s3 ++ [LockedOutBox 4] /\
  journal (db s4) = journal (db s3) /\
  length (journal (db s3)) = 3%nat.
Proof. vm_compute. repeat split. Qed.

Example right_password_logs_in :
  let s := login_attempt (py "correct horse") 1
             (login_attempt (py "wrong password") 0 sample_login) in
  shown s = [LoginFailedBox 2; LoginSuccessful (py "user@example.com")] /\
  Clear (py "user@example.com") (lockout_manager s).
Proof. vm_compute. repeat split. Qed.

(** * Further properties of the code *)

(** ** utils/auth.py *)

Lemma be_bytes_length (w : nat) (x : N) : length (SHA256.be_bytes w x) = w.
Proof. induction w as [|w IH]; simpl; [reflexivity | now rewrite IH]. Qed.

Lemma round_length (st : list N) (k w : N) :
  length st = 8%nat -> length (SHA256.round st k w) = 8%nat.
Proof.
  intros H. do 9 (destruct st as [|? st]; try discriminate). reflexivity.
Qed.

Lemma rounds_length (ks win st : list N) :
  length st = 8%nat -> length (SHA256.rounds ks win st) = 8%nat.
Proof.
  revert win st. induction ks as [|k ks IH]; intros win st H; simpl.
  - exact H.
  - apply IH, round_length, H.
Qed.

Lemma compress_length (h : list N) (block : pybytes) :
  length h = 8%nat -> length (SHA256.compress h block) = 8%nat.
Proof.
  intros H. unfold SHA256.compress.
  rewrite length_map, length_combine, rounds_length by exact H. lia.
Qed.

Lemma fold_compress_length (blocks : list pybytes) (h : list N) :
  length h = 8%nat -> length (fold_left SHA256.compress blocks h) = 8%nat.
Proof.
  revert h. induction blocks as [|b blocks IH]; intros h H; simpl.
  - exact H.
  - apply IH, compress_length, H.
Qed.

Lemma flat_map_be_bytes_length (ws : list N) :
  length (flat_map (SHA256.be_bytes 4) ws) = (4 * length ws)%nat.
Proof.
  induction ws as [|w ws IH]; [reflexivity|].
  change (flat_map (SHA256.be_bytes 4) (w :: ws))
    with (SHA256.be_bytes 4 w ++ flat_map (SHA256.be_bytes 4) ws).
  rewrite length_app, be_bytes_length, IH. simpl. lia.
Qed.

(** The digest has 32 bytes, its hexadecimal text 64 characters. *)
Lemma digest_length (msg : pybytes) : length (SHA256.digest msg) = 32%nat.
Proof.
  unfold SHA256.digest. rewrite flat_map_be_bytes_length.
  rewrite fold_compress_length; reflexivity.
Qed.

Lemma sha256_hexdigest_length (data : pybytes) :
  length (sha256_hexdigest data) = 64%nat.
Proof.
  unfold sha256_hexdigest. now rewrite hex_of_bytes_length, digest_length.
Qed.

(** X1. With sixteen bytes of entropy at hand and a password [.encode()]
    accepts, [hash_password] returns a string of 97 characters: 32
    hexadecimal characters of salt, the one [$] of the string, and the 64
    hexadecimal characters of the digest. *)
Theorem hash_password_shape (entropy : pybytes) (p : pystr) :
  (16 <= length entropy)%nat -> encodable p ->
  exists salt digest : pystr,
    hash_password entropy p = Ok (salt ++ [dollar] ++ digest) /\
    length salt = 32%nat /\ length digest = 64%nat /\
    Forall is_hex salt /\ Forall is_hex digest /\
    length (salt ++ [dollar] ++ digest) = 97%nat /\
    str_count dollar (salt ++ [dollar] ++ digest) = 1%nat.
Proof.
  intros He Hp.
  assert (Henc : encodable (salt_of entropy ++ p)).
  { apply encodable_app. split; [|exact Hp].
    apply hex_encodable, salt_of_is_hex. }
  apply str_encode_returns in Henc as [data Hdata].
  exists (salt_of entropy), (sha256_hexdigest data).
  split; [|split; [|split; [|split; [|split; [|split]]]]].
  - unfold hash_password. rewrite token_hex_16. cbn [rbind].
    now rewrite Hdata.
  - now apply salt_of_length.
  - apply sha256_hexdigest_length.
  - apply salt_of_is_hex.
  - apply sha256_hexdigest_is_hex.
  - rewrite !length_app, salt_of_length, sha256_hexdigest_length by exact He.
    reflexivity.
  - rewrite !str_count_app.
    rewrite (hex_no_dollar _ (salt_of_is_hex entropy)).
    rewrite (hex_no_dollar _ (sha256_hexdigest_is_hex data)).
    reflexivity.
Qed.

Lemma hash_password_shape_witness :
  (16 <= length (repeat 171 16))%nat /\ encodable (py "correct horse") /\
  exists salt digest : pystr,
    hash_password (repeat 171 16) (py "correct horse")
    = Ok (salt ++ [dollar] ++ digest) /\
    length salt = 32%nat /\ length digest = 64%nat.
Proof.
  assert (He : (16 <= length (repeat 171 16))%nat) by (simpl; lia).
  assert (Hp : encodable (py "correct horse"))
    by (unfold encodable; repeat constructor).
  destruct (hash_password_shape (repeat 171 16) (py "correct horse") He Hp)
    as (salt & digest & H1 & H2 & H3 & _).
  split; [exact He|]. split; [exact Hp|]. eauto.
Defined.

(** X2. [verify_password] answers [True] exactly for a stored string made
    of a salt without [$], one [$], and the digest of the salt followed by
    the password; such a stored string ends in 64 lower-case hexadecimal
    characters, so that a stored digest that is cut short or written in
    capitals never verifies. *)
Theorem verify_password_true_iff (stored p : pystr) :
  (verify_password stored p = Ok true <->
   exists (salt : pystr) (data : pybytes),
     str_count dollar salt = 0%nat /\
     str_encode (salt ++ p) = Ok data /\
     stored = salt ++ dollar :: sha256_hexdigest data) /\
  (verify_password stored p = Ok true ->
   exists salt digest : pystr,
     stored = salt ++ dollar :: digest /\
     length digest = 64%nat /\ Forall is_hex digest).
Proof.
  assert (Hiff : verify_password stored p = Ok true <->
    exists (salt : pystr) (data : pybytes),
      str_count dollar salt = 0%nat /\
      str_encode (salt ++ p) = Ok data /\
      stored = salt ++ dollar :: sha256_hexdigest data).
  { split.
    - intros Hv.
      destruct (Nat.eq_dec (str_count dollar stored) 1%nat) as [E|E].
      + destruct (unpack2_split_one _ _ E) as (salt & h & -> & U).
        assert (Hs : str_count dollar salt = 0%nat /\
                     str_count dollar h = 0%nat).
        { rewrite str_count_app in E. simpl in E. lia. }
        destruct Hs as [Hs Hh].
        rewrite verify_password_well_formed in Hv by assumption.
        destruct (str_encode (salt ++ p)) as [data|e] eqn:D;
          cbn [rbind] in Hv; [|discriminate].
        injection Hv as Hv. apply str_eqb_eq in Hv. subst h.
        exists salt, data. auto.
      + rewrite verify_password_malformed in Hv by exact E. discriminate.
    - intros (salt & data & Hs & D & ->).
      rewrite verify_password_well_formed.
      + rewrite D. cbn [rbind]. now rewrite str_eqb_refl.
      + exact Hs.
      + apply hex_no_dollar, sha256_hexdigest_is_hex. }
  split; [exact Hiff|].
  intros Hv. apply Hiff in Hv as (salt & data & _ & _ & ->).
  exists salt, (sha256_hexdigest data).
  split; [reflexivity|]. split.
  - apply sha256_hexdigest_length.
  - apply sha256_hexdigest_is_hex.
Qed.

Lemma verify_password_true_iff_witness :
  verify_password sample_stored (py "correct horse") = Ok true /\
  exists salt digest : pystr,
    sample_stored = salt ++ dollar :: digest /\ length digest = 64%nat.
Proof.
  assert (Hv : verify_password sample_stored (py "correct horse") = Ok true)
    by (vm_compute; reflexivity).
  split; [exact Hv|].
  destruct (proj2 (verify_password_true_iff sample_stored
                     (py "correct horse")) Hv)
    as (salt & digest & H1 & H2 & _).
  eauto.
Defined.

(** X3. The digest is taken over the salt directly followed by the
    password: characters (other than [$]) moved from the head of the
    password to the tail of the salt give the same answer, exception
    included. *)
Theorem verify_password_boundary (salt x h p : pystr) :
  str_count dollar salt = 0%nat -> str_count dollar x = 0%nat ->
  str_count dollar h = 0%nat ->
  verify_password ((salt ++ x) ++ dollar :: h) p
  = verify_password (salt ++ dollar :: h) (x ++ p).
Proof.
  intros Hs Hx Hh.
  rewrite !verify_password_well_formed; try assumption.
  - now rewrite <- app_assoc.
  - rewrite str_count_app. lia.
Qed.

Lemma verify_password_boundary_witness :
  str_count dollar (py "0a") = 0%nat /\ str_count dollar (py "hun") = 0%nat /\
  str_count dollar (py "beef") = 0%nat /\
  verify_password (py "0ahun$beef") (py "ter22")
  = verify_password (py "0a$beef") (py "hunter22").
Proof.
  assert (H1 : str_count dollar (py "0a") = 0%nat) by reflexivity.
  assert (H2 : str_count dollar (py "hun") = 0%nat) by reflexivity.
  assert (H3 : str_count dollar (py "beef") = 0%nat) by reflexivity.
  split; [exact H1|]. split; [exact H2|]. split; [exact H3|].
  exact (verify_password_boundary (py "0a") (py "hun") (py "beef")
           (py "ter22") H1 H2 H3).
Defined.

Lemma hash_password_returns (entropy : pybytes) (p : pystr) :
  encodable p ->
  exists data,
    hash_password entropy p
    = Ok (salt_of entropy ++ dollar :: sha256_hexdigest data) /\
    verify_password (salt_of entropy ++ dollar :: sha256_hexdigest data) p
    = Ok true.
Proof.
  intros Hp.
  assert (Henc : encodable (salt_of entropy ++ p)).
  { apply encodable_app. split; [|exact Hp].
    apply hex_encodable, salt_of_is_hex. }
  apply str_encode_returns in Henc as [data Hdata]. exists data. split.
  - unfold hash_password. rewrite token_hex_16. cbn [rbind].
    now rewrite Hdata.
  - rewrite verify_password_well_formed.
    + rewrite Hdata. cbn [rbind]. now rewrite str_eqb_refl.
    + apply hex_no_dollar, salt_of_is_hex.
    + apply hex_no_dollar, sha256_hexdigest_is_hex.
Qed.

(** X4. Two calls of [hash_password] on one password that draw different
    salts return different stored strings, and the password verifies
    against both. *)
Theorem salted_hashes_differ (entropy1 entropy2 : pybytes) (p : pystr) :
  salt_of entropy1 <> salt_of entropy2 -> encodable p ->
  exists s1 s2 : pystr,
    hash_password entropy1 p = Ok s1 /\ hash_password entropy2 p = Ok s2 /\
    s1 <> s2 /\
    verify_password s1 p = Ok true /\ verify_password s2 p = Ok true.
Proof.
  intros Hne Hp.
  destruct (hash_password_returns entropy1 p Hp) as (d1 & H1 & V1).
  destruct (hash_password_returns entropy2 p Hp) as (d2 & H2 & V2).
  eexists _, _. split; [exact H1|]. split; [exact H2|].
  split; [|split; assumption].
  exact (hash_password_salted _ _ _ _ _ Hne H1 H2).
Qed.

Lemma salted_hashes_differ_witness :
  salt_of (repeat 1 16) <> salt_of (repeat 2 16) /\
  encodable (py "hunter22") /\
  exists s1 s2 : pystr,
    hash_password (repeat 1 16) (py "hunter22") = Ok s1 /\
    hash_password (repeat 2 16) (py "hunter22") = Ok s2 /\ s1 <> s2.
Proof.
  assert (Hne : salt_of (repeat 1 16) <> salt_of (repeat 2 16))
    by (vm_compute; discriminate).
  assert (Hp : encodable (py "hunter22"))
    by (unfold encodable; repeat constructor).
  destruct (salted_hashes_differ _ _ _ Hne Hp)
    as (s1 & s2 & H1 & H2 & H3 & _).
  split; [exact Hne|]. split; [exact Hp|]. eauto.
Defined.

(** X5. [generate_reset_code(length)] of utils/auth.py raises [ValueError]
    on a negative length; otherwise, with [length // 2] bytes of entropy at
    hand, it returns hexadecimal text of [length] characters when [length]
    is even and of [length - 1] characters when it is odd. *)
Theorem auth_generate_reset_code_length (entropy : pybytes) (n : Z) :
  ((n < 0)%Z -> auth_generate_reset_code entropy n = Raise ValueError) /\
  ((0 <= n)%Z -> (n / 2 <= Z.of_nat (length entropy))%Z ->
   exists code : pystr,
     auth_generate_reset_code entropy n = Ok code /\
     Z.of_nat (length code) = (n - n mod 2)%Z /\ Forall is_hex code).
Proof.
  unfold auth_generate_reset_code, token_hex. split.
  - intros Hn. destruct (Z.ltb_spec (n / 2) 0) as [_|H]; [reflexivity|].
    exfalso. pose proof (Z.div_lt_upper_bound n 2 0). lia.
  - intros Hn He. destruct (Z.ltb_spec (n / 2) 0) as [H|_].
    + exfalso. pose proof (Z.div_pos n 2). lia.
    + eexists. split; [reflexivity|]. split.
      * rewrite hex_of_bytes_length, length_firstn.
        pose proof (Z.div_mod n 2). pose proof (Z.div_pos n 2). lia.
      * apply hex_of_bytes_is_hex.
Qed.

Lemma auth_generate_reset_code_length_witness :
  (0 <= 7)%Z /\ (7 / 2 <= Z.of_nat (length [0xAB; 0xCD; 0xEF; 0x01]))%Z /\
  (exists code : pystr,
     auth_generate_reset_code [0xAB; 0xCD; 0xEF; 0x01] 7 = Ok code /\
     Z.of_nat (length code) = 6%Z) /\
  (-1 < 0)%Z /\
  auth_generate_reset_code [0xAB; 0xCD; 0xEF; 0x01] (-1) = Raise ValueError.
Proof.
  assert (H0 : (0 <= 7)%Z) by discriminate.
  assert (H1 : (7 / 2 <= Z.of_nat (length [0xAB; 0xCD; 0xEF; 0x01]))%Z)
    by discriminate.
  assert (H2 : (-1 < 0)%Z) by reflexivity.
  destruct (proj2 (auth_generate_reset_code_length
                     [0xAB; 0xCD; 0xEF; 0x01] 7) H0 H1)
    as (code & Hc & Hl & _).
  split; [exact H0|]. split; [exact H1|]. split; [eauto|].
  split; [exact H2|].
  exact (proj1 (auth_generate_reset_code_length
                  [0xAB; 0xCD; 0xEF; 0x01] (-1)) H2).
Defined.

(** ** utils/login_helpers.py : the lockout manager *)

Lemma run_call_other (u : pystr) (now : Q) (c : tracker_call)
    (m : LoginLockoutManager) :
  call_user c <> u ->
  failed_attempts (run_call now c m) !! u = failed_attempts m !! u /\
  lockout_expiry (run_call now c m) !! u = lockout_expiry m !! u.
Proof.
  intros Hc. destruct c as [v|v|v|v]; cbn [run_call call_user] in *.
  - now apply increment_other.
  - now apply clear_lockout_other.
  - now apply is_locked_out_other.
  - auto.
Qed.

(** X6. Calls about other identities change nothing for [u]: after any
    history of such calls both dictionaries hold for [u] what they held,
    and [is_locked_out] and [get_remaining_lockout_minutes] answer for [u]
    what they would have answered. *)
Theorem tracker_isolation (u : pystr) (h : list (Q * tracker_call))
    (m : LoginLockoutManager) (now : Q) :
  Forall (fun tc => call_user (snd tc) <> u) h ->
  failed_attempts (run_calls h m) !! u = failed_attempts m !! u /\
  lockout_expiry (run_calls h m) !! u = lockout_expiry m !! u /\
  fst (is_locked_out now u (run_calls h m)) = fst (is_locked_out now u m) /\
  get_remaining_lockout_minutes now u (run_calls h m)
  = get_remaining_lockout_minutes now u m.
Proof.
  intros Hh.
  assert (E : failed_attempts (run_calls h m) !! u = failed_attempts m !! u /\
              lockout_expiry (run_calls h m) !! u = lockout_expiry m !! u).
  { revert m. induction Hh as [|[t c] h Hc _ IH]; intros m; [auto|].
    change (run_calls ((t, c) :: h) m) with (run_calls h (run_call t c m)).
    cbn [snd] in Hc. destruct (run_call_other u t c m Hc) as [Hf He].
    destruct (IH (run_call t c m)) as [-> ->]. auto. }
  destruct E as [Ef Ee]. split; [exact Ef|]. split; [exact Ee|].
  unfold is_locked_out, get_remaining_lockout_minutes. rewrite Ee.
  split; [|reflexivity].
  destruct (lockout_expiry m !! u) as [e|]; [|reflexivity].
  now destruct (Qgtb now e).
Qed.

Lemma tracker_isolation_witness :
  Forall (fun tc => call_user (snd tc) <> alice)
    [(3%Q, RecordFailure bob); (4%Q, RecordSuccess bob);
     (5%Q, IsLockedOut bob)] /\
  fst (is_locked_out 6 alice
         (run_calls [(3%Q, RecordFailure bob); (4%Q, RecordSuccess bob);
                     (5%Q, IsLockedOut bob)] three_failures))
  = fst (is_locked_out 6 alice three_failures).
Proof.
  assert (Hh : Forall (fun tc => call_user (snd tc) <> alice)
                 [(3%Q, RecordFailure bob); (4%Q, RecordSuccess bob);
                  (5%Q, IsLockedOut bob)]).
  { repeat constructor; discriminate. }
  split; [exact Hh|].
  exact (proj1 (proj2 (proj2 (tracker_isolation alice _ three_failures 6
                                Hh)))).
Defined.

Lemma py_int_le (q : Q) (k : Z) :
  (0 <= k)%Z -> (q <= inject_Z k)%Q -> (py_int q <= k)%Z.
Proof.
  destruct q as [n d]. unfold py_int, Qle, inject_Z. cbn [Qnum Qden].
  intros Hk H. destruct (Z_lt_le_dec n 0) as [Hn|Hn].
  - assert (Z.quot n (Z.pos d) <= 0)%Z; [|lia].
    rewrite <- (Z.opp_involutive n), Z.quot_opp_l by lia.
    assert (0 <= Z.quot (- n) (Z.pos d))%Z by (apply Z.quot_pos; lia). lia.
  - rewrite Z.quot_div_nonneg by lia.
    apply Z.div_le_upper_bound; lia.
Qed.

(** X7. In a state reached with a non-decreasing clock, whenever
    [is_locked_out] answers [True] for an identity, at least [MAX_ATTEMPTS]
    failures are recorded for it, and the minutes
    [get_remaining_lockout_minutes] then reports lie between 0 and 5. *)
Theorem locked_out_bounds (u : pystr) (t now : Q) (m : LoginLockoutManager) :
  reachable t m -> (t <= now)%Q ->
  fst (is_locked_out now u m) = true ->
  (MAX_ATTEMPTS <= attempts_of u m)%Z /\
  (0 <= get_remaining_lockout_minutes now u m <= 5)%Z.
Proof.
  intros Hr Hle Hl. unfold is_locked_out in Hl.
  destruct (lockout_expiry m !! u) as [e|] eqn:E; [|discriminate].
  destruct (reachable_inv t m Hr u) as [_ Hinv].
  destruct (Hinv e E) as [Hn Hb]. split; [exact Hn|].
  split; [apply remaining_nonneg|].
  unfold get_remaining_lockout_minutes. rewrite E.
  destruct (Qeq_bool e 0); [lia|].
  apply Z.max_lub; [lia|]. apply py_int_le; [lia|].
  apply Qle_shift_div_r; [reflexivity|].
  unfold LOCKOUT_DURATION in Hb.
  change (inject_Z 5 * 60)%Q with ((5 * 60)%Q). lra.
Qed.

Lemma locked_out_bounds_witness :
  reachable 2 three_failures /\ (2 <= 100)%Q /\
  fst (is_locked_out 100 alice three_failures) = true /\
  (MAX_ATTEMPTS <= attempts_of alice three_failures)%Z /\
  (0 <= get_remaining_lockout_minutes 100 alice three_failures <= 5)%Z.
Proof.
  assert (Hle : (2 <= 100)%Q) by discriminate.
  assert (Hl : fst (is_locked_out 100 alice three_failures) = true)
    by reflexivity.
  destruct (locked_out_bounds alice 2 100 three_failures
              three_failures_reachable Hle Hl) as [Hn Hb].
  split; [exact three_failures_reachable|]. split; [exact Hle|].
  split; [exact Hl|]. split; [exact Hn | exact Hb].
Defined.

(** X8. Expiry alone does not reset the count. For an identity whose
    lockout has expired, a failure recorded before any [is_locked_out]
    check locks it out again at once, on a count of at least four; with the
    check made first, the same failure is counted as the first one and does
    not lock. *)
Theorem stale_lockout_relocks (u : pystr) (t e now : Q)
    (m : LoginLockoutManager) :
  reachable t m -> LockedOut u e m -> (e < now)%Q ->
  (is_locked_out now u (increment_failed_attempts now u m)
   = (true, increment_failed_attempts now u m) /\
   (MAX_ATTEMPTS + 1 <= attempts_of u (increment_failed_attempts now u m))%Z)
  /\
  (is_locked_out now u
     (increment_failed_attempts now u (snd (is_locked_out now u m)))
   = (false, increment_failed_attempts now u (snd (is_locked_out now u m)))
   /\
   attempts_of u
     (increment_failed_attempts now u (snd (is_locked_out now u m))) = 1%Z).
Proof.
  intros Hr HL Hlt.
  destruct (reachable_inv t m Hr u) as [_ Hinv].
  destruct (Hinv e HL) as [Hn _]. split.
  - split.
    + apply (is_locked_out_pending u now (now + LOCKOUT_DURATION)).
      * apply increment_locks. lia.
      * unfold LOCKOUT_DURATION. lra.
    + rewrite increment_attempts_of. lia.
  - rewrite (is_locked_out_expired u now e m HL Hlt). cbn [snd].
    pose proof (clear_lockout_clear u m) as Hc.
    pose proof (Clear_attempts u _ Hc) as Ha. split.
    + apply is_locked_out_unlocked.
      rewrite increment_below by (rewrite Ha; unfold MAX_ATTEMPTS; lia).
      apply Hc.
    + rewrite increment_attempts_of, Ha. reflexivity.
Qed.

Lemma stale_lockout_relocks_witness :
  reachable 2 three_failures /\ LockedOut alice 302 three_failures /\
  (302 < 400)%Q /\
  fst (is_locked_out 400 alice
         (increment_failed_attempts 400 alice three_failures)) = true /\
  fst (is_locked_out 400 alice
         (increment_failed_attempts 400 alice
            (snd (is_locked_out 400 alice three_failures)))) = false.
Proof.
  assert (HL : LockedOut alice 302 three_failures) by reflexivity.
  assert (Hlt : (302 < 400)%Q) by reflexivity.
  destruct (stale_lockout_relocks alice 2 302 400 three_failures
              three_failures_reachable HL Hlt) as [[H1 _] [H2 _]].
  split; [exact three_failures_reachable|]. split; [exact HL|].
  split; [exact Hlt|].
  split; [exact (f_equal fst H1) | exact (f_equal fst H2)].
Defined.

(** ** utils/login_helpers.py : authenticate_user *)

Lemma get_user_by_username_run (username : pystr) (d : Database) :
  get_user_by_username username d =
  if outage d (length (journal d)) then
    (Raise DatabaseError, journalled (SelectUser username) false d)
  else
    (Ok (select_user (users d) username),
     journalled (SelectUser username) true d).
Proof.
  unfold get_user_by_username, bind, execute.
  destruct (outage d (length (journal d))); reflexivity.
Qed.

(** What [authenticate_user] answers once the row is fetched. *)
Lemma authenticate_user_run (username password : pystr) (d : Database) :
  authenticate_user username password d =
  if outage d (length (journal d)) then
    (Raise DatabaseError, journalled (SelectUser username) false d)
  else
    (match select_user (users d) username with
     | None => Ok (false, None)
     | Some u =>
         rbind (verify_password (password_hash u) password) (fun v =>
         Ok (if v then (true, Some u) else (false, None)))
     end,
     journalled (SelectUser username) true d).
Proof.
  unfold authenticate_user, bind. rewrite get_user_by_username_run.
  destruct (outage d (length (journal d))); [reflexivity|].
  cbn [users journalled].
  destruct (select_user (users d) username) as [u|]; [|reflexivity].
  unfold lift, ret.
  destruct (verify_password (password_hash u) password) as [[|]|e];
    reflexivity.
Qed.

(** [authenticate_user] only reads: one SELECT, no table changed. *)
Lemma authenticate_user_tables (username password : pystr) (d : Database) :
  let out := authenticate_user username password d in
  users (snd out) = users d /\
  password_reset_tokens (snd out) = password_reset_tokens d /\
  exists ok, journal (snd out) = journal d ++ [(SelectUser username, ok)].
Proof.
  cbn zeta. rewrite authenticate_user_run.
  destruct (outage d (length (journal d))); cbn; eauto.
Qed.

(** X9. [authenticate_user] sends one SELECT and changes no table. It
    answers [(True, user)] exactly when the SELECT goes through, [user] is
    the row fetched for the e-mail and the password verifies against its
    stored hash; an unknown e-mail and a wrong password get one and the
    same answer, [(False, {})]. *)
Theorem authenticate_user_spec (username password : pystr) (d : Database) :
  let out := authenticate_user username password d in
  (users (snd out) = users d /\
   password_reset_tokens (snd out) = password_reset_tokens d /\
   exists ok, journal (snd out) = journal d ++ [(SelectUser username, ok)]) /\
  (forall row,
     fst out = Ok (true, Some row) <->
     outage d (length (journal d)) = false /\
     select_user (users d) username = Some row /\
     verify_password (password_hash row) password = Ok true) /\
  (outage d (length (journal d)) = false ->
   select_user (users d) username = None -> fst out = Ok (false, None)) /\
  (forall row,
     outage d (length (journal d)) = false ->
     select_user (users d) username = Some row ->
     verify_password (password_hash row) password = Ok false ->
     fst out = Ok (false, None)).
Proof.
  cbn zeta. rewrite authenticate_user_run.
  destruct (outage d (length (journal d))) eqn:O; cbn [fst snd].
  - split; [cbn; eauto|]. split; [|split].
    + intros row. split; [discriminate | intros [? _]; discriminate].
    + discriminate.
    + discriminate.
  - split; [cbn; eauto|]. split; [|split].
    + intros row. destruct (select_user (users d) username) as [u|].
      * destruct (verify_password (password_hash u) password) as [[|]|e]
          eqn:V; cbn [rbind]; split.
        -- intros [= <-]. auto.
        -- intros (_ & [= <-] & _). reflexivity.
        -- discriminate.
        -- intros (_ & [= <-] & V'). rewrite V in V'. discriminate.
        -- discriminate.
        -- intros (_ & [= <-] & V'). rewrite V in V'. discriminate.
      * split; [discriminate | intros (_ & ? & _); discriminate].
    + now intros _ ->.
    + intros row _ -> ->. reflexivity.
Qed.

Lemma authenticate_user_spec_witness :
  outage (sample_db no_outage) (length (journal (sample_db no_outage)))
  = false /\
  select_user (users (sample_db no_outage)) (py "user@example.com")
  = Some sample_user /\
  verify_password (password_hash sample_user) (py "correct horse")
  = Ok true /\
  fst (authenticate_user (py "user@example.com") (py "correct horse")
         (sample_db no_outage)) = Ok (true, Some sample_user).
Proof.
  assert (Ho : outage (sample_db no_outage)
                 (length (journal (sample_db no_outage))) = false)
    by reflexivity.
  assert (Hs : select_user (users (sample_db no_outage))
                 (py "user@example.com") = Some sample_user)
    by reflexivity.
  assert (Hv : verify_password (password_hash sample_user)
                 (py "correct horse") = Ok true)
    by (vm_compute; reflexivity).
  split; [exact Ho|]. split; [exact Hs|]. split; [exact Hv|].
  apply (proj1 (proj2 (authenticate_user_spec (py "user@example.com")
                         (py "correct horse") (sample_db no_outage)))
           sample_user).
  auto.
Defined.



(** ** utils/database.py and utils/reset_helpers.py *)




Section TokenStore.

Context `{PyLib}.

Lemma create_password_reset_token_run (uid : Z) (tok : pystr) (expires : Z)
    (d : Database) :
  create_password_reset_token uid tok expires d =
  if outage d (length (journal d)) then
    (Ok false, journalled (InsertToken uid (token_key tok) expires) false d)
  else
    (Ok true,
     put_tokens (fun rows =>
       rows ++ [{| token_id := next_token_id rows; token_user_id := uid;
                   token := token_key tok; expires_at := AsDatetime expires;
                   is_used := false |}])
       (journalled (InsertToken uid (token_key tok) expires) true d)).
Proof.
  unfold create_password_reset_token, bind, execute, token_key.
  destruct (outage d (length (journal d))); reflexivity.
Qed.

Lemma select_token_app (rows : list token_row) (r : token_row) (k : pystr) :
  select_token (rows ++ [r]) k =
  match select_token rows k with
  | Some x => Some x
  | None => if str_eqb (sql_upper (token r)) k then Some r else None
  end.
Proof.
  unfold select_token. induction rows as [|x rows IH]; cbn [app List.find].
  - reflexivity.
  - destruct (str_eqb (sql_upper (token x)) k); [reflexivity | exact IH].
Qed.



(** X12. A token made by [create_reset_token] is accepted by
    [validate_reset_token] up to five minutes after its creation and
    refused later, whatever the casing of the input, provided the table
    held no row with the same code, the server's [UPPER] leaves the stored
    code as it is, and both statements go through. *)
Theorem create_then_validate (draw : nat -> nat) (now now' : Z) (uid : Z)
    (d : Database) (t : pystr) :
  let tok := str_upper (generate_reset_code draw 6) in
  token_key (token_key t) = token_key tok ->
  sql_upper (token_key tok) = token_key tok ->
  select_token (password_reset_tokens d) (token_key tok) = None ->
  outage d (length (journal d)) = false ->
  outage d (S (length (journal d))) = false ->
  exists d1 : Database,
    create_reset_token draw now uid d = (Ok (Some tok), d1) /\
    ((now' <= now + minutes RESET_TOKEN_EXPIRY_MINUTES)%Z ->
     fst (validate_reset_token t now' d1) = Ok true) /\
    ((now + minutes RESET_TOKEN_EXPIRY_MINUTES < now')%Z ->
     fst (validate_reset_token t now' d1) = Ok false).
Proof.
  intros tok Ht Hsql Hfree O1 O2.
  unfold create_reset_token. fold tok. unfold bind.
  rewrite create_password_reset_token_run, O1. cbn [ret].
  eexists. split; [reflexivity|].
  rewrite validate_reset_token_run. cbn zeta.
  cbn [journal journalled put_tokens outage password_reset_tokens].
  rewrite length_app. cbn [length]. rewrite Nat.add_1_r, O2. cbn [fst].
  unfold verdict. rewrite Ht, select_token_app, Hfree.
  cbn [token]. rewrite Hsql, str_eqb_refl.
  cbn [is_used expiry_of expires_at rbind]. split; intros Hn.
  - now rewrite (proj2 (Z.ltb_ge _ _) Hn).
  - now rewrite (proj2 (Z.ltb_lt _ _) Hn).
Qed.


(** Every call on the store keeps the rows of the token table, with their
    id, user, code and expiry, and keeps used rows used. *)
Lemma run_op_keeps_tokens (op : db_op) (d : Database) (r : token_row) :
  In r (password_reset_tokens d) ->
  exists r',
    In r' (password_reset_tokens (run_op op d)) /\
    token_id r' = token_id r /\ token_user_id r' = token_user_id r /\
    token r' = token r /\ expires_at r' = expires_at r /\
    (is_used r = true -> is_used r' = true).
Proof.
  intros Hin. destruct op as [u|uid h|uid tok ex|tok|tid]; cbn [run_op].
  - rewrite get_user_by_username_run.
    destruct (outage d _); exists r; cbn; auto 7.
  - rewrite update_user_password_run.
    destruct (outage d _); exists r; cbn; auto 7.
  - rewrite create_password_reset_token_run.
    destruct (outage d _); exists r; cbn; rewrite ?in_app_iff; auto 7.
  - rewrite get_password_reset_token_run.
    destruct (outage d _); exists r; cbn; auto 7.
  - fold (mark_token_used tid). rewrite mark_token_used_run.
    destruct (outage d _).
    + exists r. cbn. auto 7.
    + exists (if (token_id r =? tid)%Z then with_used r else r).
      cbn [snd password_reset_tokens put_tokens journalled]. split.
      * unfold used_tokens. apply List.in_map_iff. eauto.
      * destruct (token_id r =? tid)%Z; cbn; auto 6.
Qed.

(** X14. Whatever the calls made on the store, a row of the token table is
    never deleted and its id, user, code and expiry never change; a row
    that is marked used stays used. *)
Theorem token_rows_persist (ops : list db_op) (d : Database) (r : token_row) :
  In r (password_reset_tokens d) ->
  exists r',
    In r' (password_reset_tokens (run_ops ops d)) /\
    token_id r' = token_id r /\ token_user_id r' = token_user_id r /\
    token r' = token r /\ expires_at r' = expires_at r /\
    (is_used r = true -> is_used r' = true).
Proof.
  revert d r. induction ops as [|op ops IH]; intros d r Hin.
  - exists r. cbn. auto 7.
  - change (run_ops (op :: ops) d) with (run_ops ops (run_op op d)).
    destruct (run_op_keeps_tokens op d r Hin)
      as (r1 & Hin1 & E1 & E2 & E3 & E4 & E5).
    destruct (IH _ r1 Hin1) as (r2 & Hin2 & F1 & F2 & F3 & F4 & F5).
    exists r2. split; [exact Hin2|].
    rewrite F1, F2, F3, F4. auto 7.
Qed.

End TokenStore.

Lemma create_then_validate_witness :
  @token_key Sample.lib (@token_key Sample.lib (py " dkry5c "))
  = @token_key Sample.lib
      (@str_upper Sample.lib (generate_reset_code sample_draw 6)) /\
  @select_token Sample.lib (password_reset_tokens (sample_db no_outage))
    (@token_key Sample.lib
       (@str_upper Sample.lib (generate_reset_code sample_draw 6))) = None /\
  exists d1 : Database,
    @create_reset_token Sample.lib sample_draw 0 42 (sample_db no_outage)
    = (Ok (Some (py "DKRY5C")), d1) /\
    fst (@validate_reset_token Sample.lib (py " dkry5c ") 300000000 d1)
    = Ok true /\
    fst (@validate_reset_token Sample.lib (py " dkry5c ") 300000001 d1)
    = Ok false.
Proof.
  assert (Ht : @token_key Sample.lib (@token_key Sample.lib (py " dkry5c "))
               = @token_key Sample.lib
                   (@str_upper Sample.lib (generate_reset_code sample_draw 6)))
    by reflexivity.
  assert (Hf : @select_token Sample.lib
                 (password_reset_tokens (sample_db no_outage))
                 (@token_key Sample.lib
                    (@str_upper Sample.lib
                       (generate_reset_code sample_draw 6))) = None)
    by reflexivity.
  destruct (create_then_validate (H := Sample.lib) sample_draw 0 300000000
              42 (sample_db no_outage) (py " dkry5c ") Ht eq_refl Hf
              eq_refl eq_refl) as (d1 & Hc & Hv & _).
  destruct (create_then_validate (H := Sample.lib) sample_draw 0 300000001
              42 (sample_db no_outage) (py " dkry5c ") Ht eq_refl Hf
              eq_refl eq_refl) as (d2 & Hc2 & _ & Hx).
  rewrite Hc in Hc2. injection Hc2 as <-.
  split; [exact Ht|]. split; [exact Hf|]. exists d1.
  split; [exact Hc|]. split.
  - apply Hv. discriminate.
  - apply Hx. reflexivity.
Defined.


Lemma token_rows_persist_witness :
  In (with_used sample_row)
     (password_reset_tokens (snd (mark_token_used 7 (sample_db no_outage))))
  /\
  exists r',
    In r' (password_reset_tokens
             (@run_ops Sample.lib
                [OpCreateToken 42 (py "zz99zz") 5000; OpMarkUsed 7;
                 OpUpdatePassword 42 (py "x$y"); OpGetToken (py "ab12cd")]
                (snd (mark_token_used 7 (sample_db no_outage))))) /\
    token_id r' = 7%Z /\ token r' = py "AB12CD" /\ is_used r' = true.
Proof.
  assert (Hin : In (with_used sample_row)
                  (password_reset_tokens
                     (snd (mark_token_used 7 (sample_db no_outage)))))
    by (left; reflexivity).
  split; [exact Hin|].
  destruct (token_rows_persist (H := Sample.lib)
              [OpCreateToken 42 (py "zz99zz") 5000; OpMarkUsed 7;
               OpUpdatePassword 42 (py "x$y"); OpGetToken (py "ab12cd")]
              _ _ Hin) as (r' & H1 & H2 & _ & H4 & _ & H6).
  exists r'. split; [exact H1|]. split; [exact H2|]. split; [exact H4|].
  apply H6. reflexivity.
Defined.

(** ** screens/reset_password.py *)

Section ResetScreen.

Context `{PyLib}.

(** X15. When the code field is blank after stripping, the password field
    is empty, or the new password has fewer than eight characters,
    [on_reset_password] shows its warning and does nothing else: the store,
    journal included, is the same. *)
Theorem reset_guards_touch_nothing (token_text new_password : pystr)
    (rnd : pybytes) (now : Z) (self : PasswordResetScreen) :
  str_strip token_text = [] \/ new_password = [] \/
  (length new_password < 8)%nat ->
  exists msg : pystr,
    (msg = msg_fill_in \/ msg = msg_password_length) /\
    on_reset_password token_text new_password rnd now self
    = (Ok tt, {| reset_db := reset_db self;
                 reset_shown := reset_shown self ++ [ResetErrorBox msg] |}).
Proof.
  intros Hbad. unfold on_reset_password.
  destruct (str_falsy (str_strip token_text) || str_falsy new_password)
    eqn:G1.
  { exists msg_fill_in. split; [auto | reflexivity]. }
  apply orb_false_iff in G1 as [G1 G2].
  destruct (length new_password <? 8)%nat eqn:G3.
  { exists msg_password_length. split; [auto | reflexivity]. }
  exfalso. destruct Hbad as [Hb|[Hb|Hb]].
  - rewrite Hb in G1. discriminate.
  - rewrite Hb in G2. discriminate.
  - apply Nat.ltb_ge in G3. lia.
Qed.





End ResetScreen.



Lemma reset_guards_touch_nothing_witness :
  @str_strip Sample.lib (py "   ") = [] /\
  exists msg : pystr,
    @on_reset_password Sample.lib (py "   ") (py "new password")
      (repeat 1 16) 999 sample_reset
    = (Ok tt, {| reset_db := reset_db sample_reset;
                 reset_shown := [ResetErrorBox msg] |}).
Proof.
  assert (Hb : @str_strip Sample.lib (py "   ") = []) by reflexivity.
  destruct (reset_guards_touch_nothing (H := Sample.lib) (py "   ")
              (py "new password") (repeat 1 16) 999 sample_reset
              (or_introl Hb)) as (msg & _ & Hrun).
  split; [exact Hb|]. exists msg. exact Hrun.
Defined.

(** ** screens/login.py *)

Section LoginClicks.

Context `{PyLib}.

(** X18. [_on_login_clicked] never sends a statement to the store and
    never raises, whatever the fields hold; all it may do to the lockout
    manager is the clearing of an expired lockout of the identity typed
    in. *)
Theorem login_click_reads_no_store (username_text password_text : pystr)
    (t1 t2 : Q) (self : LoginScreen) :
  let out := _on_login_clicked username_text password_text t1 t2 self in
  let username := str_lower (str_strip username_text) in
  fst out = Ok tt /\ db (snd out) = db self /\
  (lockout_manager (snd out) = lockout_manager self \/
   lockout_manager (snd out) = clear_lockout username (lockout_manager self)).
Proof.
  cbn zeta. unfold _on_login_clicked.
  destruct (_is_logging_in self); [auto|].
  destruct (validate_login_input _ password_text) as [[|] error];
    cbn [negb]; [|cbn; auto].
  unfold bind, login_tracker, is_locked_out.
  destruct (lockout_expiry (lockout_manager self) !! _) as [e|];
    [|cbn; auto].
  destruct (Qgtb t1 e); cbn; auto.
Qed.

(** X19. While an identity is locked out, a click on Login with input of
    valid shape only shows the lockout message with the minutes left: no
    attempt is started, the password is not looked at, and neither the
    store nor the lockout manager changes. *)
Theorem locked_out_click_refused (username_text password_text : pystr)
    (t1 t2 e : Q) (self : LoginScreen) :
  _is_logging_in self = false ->
  fst (validate_login_input (str_lower (str_strip username_text))
         password_text) = true ->
  LockedOut (str_lower (str_strip username_text)) e (lockout_manager self) ->
  (t1 <= e)%Q ->
  _on_login_clicked username_text password_text t1 t2 self
  = (Ok tt,
     {| db := db self; lockout_manager := lockout_manager self;
        _is_logging_in := false; _pending := _pending self;
        _login_timer := _login_timer self;
        shown := shown self ++
          [LockedOutBox (get_remaining_lockout_minutes t2
                           (str_lower (str_strip username_text))
                           (lockout_manager self))] |}).
Proof.
  intros L Hv HL Hle. unfold _on_login_clicked. rewrite L.
  rewrite (validate_login_input_valid _ _ Hv). cbn [negb].
  unfold bind, login_tracker.
  rewrite (is_locked_out_pending _ t1 e _ HL Hle). cbn.
  now rewrite L.
Qed.

(** X20. A click on Login with input of valid shape, for an identity that
    is not locked out, starts one attempt: the stripped, lower-cased e-mail
    and the password are kept, the timer is started, nothing is shown; and
    until the attempt is completed every further click is ignored. *)
Theorem accepted_click_starts_attempt (username_text password_text : pystr)
    (t1 t2 : Q) (self : LoginScreen) :
  _is_logging_in self = false ->
  fst (validate_login_input (str_lower (str_strip username_text))
         password_text) = true ->
  fst (is_locked_out t1 (str_lower (str_strip username_text))
         (lockout_manager self)) = false ->
  exists self' : LoginScreen,
    _on_login_clicked username_text password_text t1 t2 self
    = (Ok tt, self') /\
    _pending self'
    = Some (str_lower (str_strip username_text), password_text) /\
    _login_timer self' = true /\ _is_logging_in self' = true /\
    shown self' = shown self /\ db self' = db self /\
    (forall (u' p' : pystr) (t1' t2' : Q),
       _on_login_clicked u' p' t1' t2' self' = (Ok tt, self')).
Proof.
  intros L Hv Hl. unfold _on_login_clicked at 1. rewrite L.
  rewrite (validate_login_input_valid _ _ Hv). cbn [negb].
  unfold bind, login_tracker.
  destruct (is_locked_out t1 _ (lockout_manager self)) as [locked m] eqn:E.
  cbn [fst] in Hl. subst locked. cbn.
  eexists. split; [reflexivity|]. cbn. repeat split.
Qed.

(** What [_complete_login_attempt] does once the stored attempt is read. *)
Lemma complete_login_attempt_raises (t1 t2 t3 : Q) (self : LoginScreen)
    (username password : pystr) (e : exn) :
  _pending self = Some (username, password) ->
  fst (authenticate_user username password (db self)) = Raise e ->
  exists self' : LoginScreen,
    _complete_login_attempt t1 t2 t3 self = (Raise e, self') /\
    lockout_manager self' = lockout_manager self /\
    _is_logging_in self' = _is_logging_in self /\
    shown self' = shown self /\
    users (db self') = users (db self) /\
    password_reset_tokens (db self')
    = password_reset_tokens (db self).
Proof.
  intros Hp Ha. unfold _complete_login_attempt. rewrite Hp.
  unfold bind, timer_fired, login_db, zoom. cbn [db].
  pose proof (authenticate_user_tables username password (db self))
    as (Hu & Ht & _).
  destruct (authenticate_user username password (db self)) as [r d'].
  cbn [fst snd] in *. subst r. eexists. split; [reflexivity|].
  cbn. auto.
Qed.

(** X21. When [authenticate_user] raises in the timer's slot (the
    connector's error, or the encoding error of a password no [.encode()]
    accepts), the failure is not counted, nothing is shown, and the screen
    stays in its logging-in state: every later click on Login is
    ignored. *)
Theorem login_stuck_after_exception (t1 t2 t3 : Q) (self : LoginScreen)
    (username password : pystr) (e : exn) :
  _pending self = Some (username, password) ->
  _is_logging_in self = true ->
  fst (authenticate_user username password (db self)) = Raise e ->
  exists self' : LoginScreen,
    _complete_login_attempt t1 t2 t3 self = (Raise e, self') /\
    lockout_manager self' = lockout_manager self /\
    shown self' = shown self /\
    _is_logging_in self' = true /\
    (forall (u' p' : pystr) (t1' t2' : Q),
       _on_login_clicked u' p' t1' t2' self' = (Ok tt, self')).
Proof.
  intros Hp L Ha.
  destruct (complete_login_attempt_raises t1 t2 t3 self _ _ e Hp Ha)
    as (self' & Hrun & Hm & Hl & Hs & _).
  exists self'. split; [exact Hrun|]. split; [exact Hm|].
  split; [exact Hs|]. rewrite Hl, L. split; [reflexivity|].
  intros u' p' t1' t2'. unfold _on_login_clicked. now rewrite Hl, L.
Qed.

(** X22. A completed attempt with the right password wipes the count and
    the lockout of the identity, emits [login_successful] with the
    identity, and ends the logging-in state; the store was only read. *)
Theorem successful_attempt_clears (t1 t2 t3 : Q) (self : LoginScreen)
    (username password : pystr) (row : user_row) :
  _pending self = Some (username, password) ->
  fst (authenticate_user username password (db self))
  = Ok (true, Some row) ->
  exists self' : LoginScreen,
    _complete_login_attempt t1 t2 t3 self = (Ok tt, self') /\
    lockout_manager self' = clear_lockout username (lockout_manager self) /\
    Clear username (lockout_manager self') /\
    shown self' = shown self ++ [LoginSuccessful username] /\
    _is_logging_in self' = false /\ _login_timer self' = false /\
    users (db self') = users (db self) /\
    password_reset_tokens (db self') = password_reset_tokens (db self).
Proof.
  intros Hp Ha. unfold _complete_login_attempt. rewrite Hp.
  unfold bind, timer_fired, login_db, zoom. cbn [db].
  pose proof (authenticate_user_tables username password (db self))
    as (Hu & Ht & _).
  destruct (authenticate_user username password (db self)) as [r d'].
  cbn [fst snd] in *. subst r. cbn.
  eexists. split; [reflexivity|]. cbn.
  split; [reflexivity|]. split; [apply clear_lockout_clear|]. auto.
Qed.

(** X23. A completed attempt that [authenticate_user] refuses, on a manager
    reached by earlier calls, adds exactly one to the count of the identity
    and leaves every other identity alone; it shows either
    "Invalid credentials" with one or two attempts left, or the lockout
    message with at most five minutes, and ends the logging-in state. The
    clock readings of the slot are assumed not to go backwards nor to jump
    past the lockout duration. *)
Theorem failed_attempt_is_counted (t t1 t2 t3 : Q) (self : LoginScreen)
    (username password : pystr) :
  _pending self = Some (username, password) ->
  fst (authenticate_user username password (db self)) = Ok (false, None) ->
  reachable t (lockout_manager self) ->
  (t2 <= t1 + LOCKOUT_DURATION)%Q -> (t1 <= t3)%Q ->
  exists (self' : LoginScreen) (box : ui_event),
    _complete_login_attempt t1 t2 t3 self = (Ok tt, self') /\
    attempts_of username (lockout_manager self')
    = (attempts_of username (lockout_manager self) + 1)%Z /\
    (forall v, v <> username ->
       failed_attempts (lockout_manager self') !! v
       = failed_attempts (lockout_manager self) !! v /\
       lockout_expiry (lockout_manager self') !! v
       = lockout_expiry (lockout_manager self) !! v) /\
    shown self' = shown self ++ [box] /\
    ((exists k, box = LoginFailedBox k /\ (1 <= k <= 2)%Z /\
                k = (3 - attempts_of username (lockout_manager self'))%Z) \/
     (exists r, box = LockedOutBox r /\ (0 <= r <= 5)%Z /\
                (MAX_ATTEMPTS <= attempts_of username
                                  (lockout_manager self'))%Z)) /\
    _is_logging_in self' = false /\
    users (db self') = users (db self) /\
    password_reset_tokens (db self') = password_reset_tokens (db self).
Proof.
  intros Hp Ha Hr H2 H3. unfold _complete_login_attempt. rewrite Hp.
  unfold bind, timer_fired, login_db, zoom. cbn [db].
  pose proof (authenticate_user_tables username password (db self))
    as (Hu & Ht & _).
  destruct (authenticate_user username password (db self)) as [r d'].
  cbn [fst snd] in *. subst r. cbn [fst].
  set (lm := lockout_manager self) in *.
  set (lm1 := increment_failed_attempts t1 username lm).
  destruct (reachable_inv t lm Hr username) as [Hpos Hinv].
  assert (Hn : (0 <= attempts_of username lm)%Z).
  { unfold attempts_of.
    destruct (failed_attempts lm !! username) as [z|] eqn:E; simpl; [|lia].
    specialize (Hpos z eq_refl). lia. }
  assert (Hother : forall v, v <> username ->
            failed_attempts lm1 !! v = failed_attempts lm !! v /\
            lockout_expiry lm1 !! v = lockout_expiry lm !! v).
  { intros v Hv. apply increment_other. congruence. }
  destruct (Z_lt_le_dec (attempts_of username lm + 1) MAX_ATTEMPTS)
    as [Hlt|Hge].
  - assert (He : lockout_expiry lm1 !! username = None).
    { unfold lm1. rewrite increment_below by exact Hlt.
      destruct (lockout_expiry lm !! username) as [e|] eqn:E;
        [|reflexivity].
      destruct (Hinv e eq_refl) as [E' _]. lia. }
    unfold login_tracker at 1. cbn [lockout_manager].
    fold lm. fold lm1.
    unfold login_tracker at 1. cbn [lockout_manager].
    unfold login_tracker at 1. cbn [lockout_manager].
    rewrite (is_locked_out_unlocked username t2 lm1 He).
    cbn. eexists _, _. split; [reflexivity|]. cbn.
    fold lm. fold lm1.
    split; [apply increment_attempts_of|]. split; [exact Hother|].
    split; [reflexivity|]. split; [|auto].
    left. eexists. split; [reflexivity|].
    unfold lm1. rewrite increment_attempts_of. unfold MAX_ATTEMPTS in Hlt.
    split; [lia | reflexivity].
  - assert (He : LockedOut username (t1 + LOCKOUT_DURATION) lm1)
      by (apply increment_locks; exact Hge).
    unfold login_tracker at 1. cbn [lockout_manager].
    fold lm. fold lm1.
    unfold login_tracker at 1. cbn [lockout_manager].
    unfold login_tracker at 1. cbn [lockout_manager].
    rewrite (is_locked_out_pending username t2 _ lm1 He H2).
    unfold login_tracker at 1. cbn [lockout_manager].
    cbn. eexists _, _. split; [reflexivity|]. cbn.
    fold lm. fold lm1.
    split; [apply increment_attempts_of|]. split; [exact Hother|].
    split; [reflexivity|]. split; [|auto].
    right. eexists. split; [reflexivity|]. split.
    + split; [apply remaining_nonneg|].
      unfold get_remaining_lockout_minutes. rewrite He.
      destruct (Qeq_bool _ 0); [lia|].
      apply Z.max_lub; [lia|]. apply py_int_le; [lia|].
      apply Qle_shift_div_r; [reflexivity|].
      unfold LOCKOUT_DURATION.
      change (inject_Z 5 * 60)%Q with ((5 * 60)%Q). lra.
    + unfold lm1. rewrite increment_attempts_of. exact Hge.
Qed.

End LoginClicks.

Lemma locked_out_click_refused_witness :
  _is_logging_in locked_login = false /\
  fst (validate_login_input
         (@str_lower Sample.lib (@str_strip Sample.lib
                                   (py " Alice@Example.com ")))
         (py "any password")) = true /\
  LockedOut (@str_lower Sample.lib (@str_strip Sample.lib
                                      (py " Alice@Example.com ")))
            302 (lockout_manager locked_login) /\
  (10 <= 302)%Q /\
  snd (@_on_login_clicked Sample.lib (py " Alice@Example.com ")
         (py "any password") 10 10 locked_login)
  = {| db := sample_db no_outage; lockout_manager := three_failures;
       _is_logging_in := false; _pending := None; _login_timer := false;
       shown := [LockedOutBox 4] |}.
Proof.
  assert (L : _is_logging_in locked_login = false) by reflexivity.
  assert (Hv : fst (validate_login_input
                      (@str_lower Sample.lib
                         (@str_strip Sample.lib (py " Alice@Example.com ")))
                      (py "any password")) = true) by reflexivity.
  assert (HL : LockedOut (@str_lower Sample.lib
                            (@str_strip Sample.lib
                               (py " Alice@Example.com ")))
                         302 (lockout_manager locked_login)) by reflexivity.
  assert (Hle : (10 <= 302)%Q) by discriminate.
  split; [exact L|]. split; [exact Hv|]. split; [exact HL|].
  split; [exact Hle|].
  rewrite (locked_out_click_refused (H := Sample.lib)
             (py " Alice@Example.com ") (py "any password") 10 10 302
             locked_login L Hv HL Hle).
  reflexivity.
Defined.

Lemma accepted_click_starts_attempt_witness :
  _is_logging_in sample_login = false /\
  exists self' : LoginScreen,
    @_on_login_clicked Sample.lib (py " User@Example.com ")
      (py "correct horse") 0 0 sample_login = (Ok tt, self') /\
    _pending self' = Some (py "user@example.com", py "correct horse") /\
    _login_timer self' = true.
Proof.
  assert (L : _is_logging_in sample_login = false) by reflexivity.
  destruct (accepted_click_starts_attempt (H := Sample.lib)
              (py " User@Example.com ") (py "correct horse") 0 0
              sample_login L eq_refl eq_refl)
    as (self' & Hrun & Hp & Ht & _).
  split; [exact L|]. exists self'. split; [exact Hrun|].
  split; [exact Hp | exact Ht].
Defined.

Lemma login_stuck_after_exception_witness :
  let self := pending_login (sample_db (fun _ => true)) new_manager
                (py "correct horse") in
  fst (authenticate_user (py "user@example.com") (py "correct horse")
         (db self)) = Raise DatabaseError /\
  exists self' : LoginScreen,
    _complete_login_attempt 1 1 1 self = (Raise DatabaseError, self') /\
    _is_logging_in self' = true /\
    @_on_login_clicked Sample.lib (py "user@example.com")
      (py "correct horse") 2 2 self' = (Ok tt, self').
Proof.
  cbn zeta.
  set (self := pending_login (sample_db (fun _ => true)) new_manager
                 (py "correct horse")).
  assert (Ha : fst (authenticate_user (py "user@example.com")
                      (py "correct horse") (db self)) = Raise DatabaseError)
    by reflexivity.
  destruct (login_stuck_after_exception (H := Sample.lib) 1 1 1 self
              (py "user@example.com") (py "correct horse") DatabaseError
              eq_refl eq_refl Ha) as (self' & Hrun & _ & _ & Hl & Hclick).
  split; [exact Ha|]. exists self'. split; [exact Hrun|].
  split; [exact Hl | apply Hclick].
Defined.

Lemma successful_attempt_clears_witness :
  let self := pending_login (sample_db no_outage) two_failures
                (py "correct horse") in
  fst (authenticate_user (py "user@example.com") (py "correct horse")
         (db self)) = Ok (true, Some sample_user) /\
  exists self' : LoginScreen,
    _complete_login_attempt 1 1 1 self = (Ok tt, self') /\
    shown self' = [LoginSuccessful (py "user@example.com")] /\
    _is_logging_in self' = false.
Proof.
  cbn zeta.
  set (self := pending_login (sample_db no_outage) two_failures
                 (py "correct horse")).
  assert (Ha : fst (authenticate_user (py "user@example.com")
                      (py "correct horse") (db self))
               = Ok (true, Some sample_user)) by (vm_compute; reflexivity).
  destruct (successful_attempt_clears 1 1 1 self (py "user@example.com")
              (py "correct horse") sample_user eq_refl Ha)
    as (self' & Hrun & _ & _ & Hs & Hl & _).
  split; [exact Ha|]. exists self'. split; [exact Hrun|].
  split; [exact Hs | exact Hl].
Defined.

Lemma failed_attempt_is_counted_witness :
  let self := pending_login (sample_db no_outage) new_manager
                (py "wrong password") in
  fst (authenticate_user (py "user@example.com") (py "wrong password")
         (db self)) = Ok (false, None) /\
  reachable 0 (lockout_manager self) /\
  (1 <= 1 + LOCKOUT_DURATION)%Q /\ (1 <= 1)%Q /\
  exists self' : LoginScreen,
    _complete_login_attempt 1 1 1 self = (Ok tt, self') /\
    attempts_of (py "user@example.com") (lockout_manager self') = 1%Z /\
    _is_logging_in self' = false.
Proof.
  cbn zeta.
  set (self := pending_login (sample_db no_outage) new_manager
                 (py "wrong password")).
  assert (Ha : fst (authenticate_user (py "user@example.com")
                      (py "wrong password") (db self)) = Ok (false, None))
    by (vm_compute; reflexivity).
  assert (Hr : reachable 0 (lockout_manager self)) by apply reach_new.
  assert (H2 : (1 <= 1 + LOCKOUT_DURATION)%Q) by discriminate.
  assert (H3 : (1 <= 1)%Q) by discriminate.
  destruct (failed_attempt_is_counted 0 1 1 1 self (py "user@example.com")
              (py "wrong password") eq_refl Ha Hr H2 H3)
    as (self' & box & Hrun & Hc & _ & _ & _ & Hl & _).
  split; [exact Ha|]. split; [exact Hr|]. split; [exact H2|].
  split; [exact H3|]. exists self'. split; [exact Hrun|].
  split; [exact Hc | exact Hl].
Defined.

(** ** utils/signup_helpers.py *)

Example re_match_samples :
  List.map (re_match email_regex)
    [py "a@b.c"; py "a@b.c@d"; py "a@.c"; py "a@b."; py "@b.c"; py "a@b..";
     py "a@b@c.d"; py "a.b@c"; py "x@y.z trailing"]
  = [true; true; false; false; false; true; false; false; true] /\
  List.map (re_match_dollar (phone_regex ascii_digit))
    [py "1234567"; py "+1234567"; py "1234567" ++ [newline]; py "123456";
     py "1234567890123456"; py "+"; py "12345 67";
     py "1234567" ++ [newline; newline]; py "+123456789012345"]
  = [true; true; true; false; false; false; false; false; true].
Proof. split; reflexivity. Qed.

Lemma matches_nil_accepts (a : pattern) (s : pystr) :
  matches a s -> s = [] -> accepts_empty a = true.
Proof.
  induction 1 as [|cls c Hc|a b s1 s2 _ IH1 _ IH2|a b s _ IH|a b s _ IH
                 |a|a s1 s2 _ _ _ _]; intros E; cbn [accepts_empty];
    try reflexivity.
  - discriminate.
  - apply app_eq_nil in E as [-> ->]. now rewrite IH1, IH2.
  - now rewrite IH.
  - rewrite IH by exact E. apply orb_true_r.
Qed.

Lemma accepts_empty_spec (a : pattern) :
  accepts_empty a = true <-> matches a [].
Proof.
  split; [|intros Hm; now apply (matches_nil_accepts a [])].
  induction a as [| |cls|a IHa b IHb|a IHa b IHb|a IHa];
    cbn [accepts_empty]; intros E; try discriminate.
  - constructor.
  - apply andb_true_iff in E as [Ea Eb].
    change (@nil N) with (@nil N ++ []). constructor; auto.
  - apply orb_true_iff in E as [E|E];
      [apply matches_alt_l | apply matches_alt_r]; auto.
  - constructor.
Qed.

Lemma matches_cons_after (a : pattern) (cs : pystr) :
  matches a cs -> forall c s, cs = c :: s -> matches (after c a) s.
Proof.
  induction 1 as [|cls c' Hc|a b s1 s2 H1 IH1 H2 IH2|a b s' _ IH|a b s' _ IH
                 |a|a s1 s2 H1 IH1 H2 IH2]; intros c s E; cbn [after].
  - discriminate.
  - injection E as -> <-. rewrite Hc. constructor.
  - destruct s1 as [|c1 s1].
    + cbn [app] in E. subst s2.
      rewrite (matches_nil_accepts a [] H1 eq_refl).
      apply matches_alt_r. now apply IH2.
    + cbn [app] in E. injection E as -> <-.
      assert (Hm : matches (PSeq (after c a) b) (s1 ++ s2))
        by (constructor; [now apply IH1 | exact H2]).
      destruct (accepts_empty a); [now apply matches_alt_l | exact Hm].
  - apply matches_alt_l. now apply IH.
  - apply matches_alt_r. now apply IH.
  - discriminate.
  - destruct s1 as [|c1 s1].
    + cbn [app] in E. now apply IH2.
    + cbn [app] in E. injection E as -> <-.
      constructor; [now apply IH1 | exact H2].
Qed.

Lemma matches_after_cons (c : N) (a : pattern) (s : pystr) :
  matches (after c a) s -> matches a (c :: s).
Proof.
  revert s. induction a as [| |cls|a IHa b IHb|a IHa b IHb|a IHa];
    cbn [after]; intros s Hm.
  - inversion Hm.
  - inversion Hm.
  - destruct (cls c) eqn:E; inversion Hm; subst. now constructor.
  - assert (Hseq : forall s, matches (PSeq (after c a) b) s ->
                             matches (PSeq a b) (c :: s)).
    { intros s0 H0. inversion H0; subst.
      change (c :: s1 ++ s2) with ((c :: s1) ++ s2).
      constructor; [now apply IHa | assumption]. }
    destruct (accepts_empty a) eqn:E; [|now apply Hseq].
    inversion Hm; subst; [now apply Hseq|].
    change (c :: s) with ([] ++ c :: s).
    constructor; [now apply accepts_empty_spec | now apply IHb].
  - inversion Hm; subst;
      [apply matches_alt_l; now apply IHa
      |apply matches_alt_r; now apply IHb].
  - inversion Hm; subst.
    change (c :: s1 ++ s2) with ((c :: s1) ++ s2).
    constructor; [now apply IHa | assumption].
Qed.

Lemma after_spec (c : N) (a : pattern) (s : pystr) :
  matches (after c a) s <-> matches a (c :: s).
Proof.
  split; [apply matches_after_cons|].
  intros Hm. now apply (matches_cons_after a (c :: s)).
Qed.

(** [re_match] finds a prefix the pattern matches as a whole. *)
Lemma re_match_spec (a : pattern) (s : pystr) :
  re_match a s = true <-> exists u v, s = u ++ v /\ matches a u.
Proof.
  revert a. induction s as [|c s IH]; intros a; cbn [re_match].
  - rewrite orb_false_r, accepts_empty_spec. split.
    + intros Hm. now exists [], [].
    + intros (u & v & E & Hm). symmetry in E.
      apply app_eq_nil in E as [-> _]. exact Hm.
  - rewrite orb_true_iff, accepts_empty_spec, IH. split.
    + intros [Hm|(u & v & -> & Hm)].
      * now exists [], (c :: s).
      * exists (c :: u), v. split; [reflexivity | now apply after_spec].
    + intros (u & v & E & Hm). destruct u as [|c' u].
      * now left.
      * cbn [app] in E. injection E as <- ->. right.
        exists u, v. split; [reflexivity | now apply after_spec].
Qed.

Lemma re_match_dollar_spec (a : pattern) (s : pystr) :
  re_match_dollar a s = true <->
  exists u v, s = u ++ v /\ matches a u /\ (v = [] \/ v = [newline]).
Proof.
  revert a. induction s as [|c s IH]; intros a; cbn [re_match_dollar].
  - rewrite accepts_empty_spec. split.
    + intros Hm. exists [], []. auto.
    + intros (u & v & E & Hm & _). symmetry in E.
      apply app_eq_nil in E as [-> _]. exact Hm.
  - rewrite orb_true_iff, !andb_true_iff, accepts_empty_spec, IH,
      N.eqb_eq, str_falsy_true. split.
    + intros [[[Hm ->] ->]|(u & v & -> & Hm & Hv)].
      * exists [], [newline]. auto.
      * exists (c :: u), v.
        split; [reflexivity|]. split; [now apply after_spec | exact Hv].
    + intros (u & v & E & Hm & Hv). destruct u as [|c' u].
      * cbn [app] in E. subst v. left.
        destruct Hv as [Hv|Hv]; [discriminate|].
        injection Hv as -> ->. auto.
      * cbn [app] in E. injection E as <- ->. right.
        exists u, v. split; [reflexivity|].
        split; [now apply after_spec | exact Hv].
Qed.

(** Repetitions of one character class. *)
Lemma matches_star_class (cls : N -> bool) (s : pystr) :
  matches (PStar (PClass cls)) s <-> forallb cls s = true.
Proof.
  split.
  - intros Hm. remember (PStar (PClass cls)) as a eqn:Ea.
    induction Hm as [| | | | |a|a s1 s2 H1 _ _ IH2]; try discriminate.
    + reflexivity.
    + injection Ea as ->. inversion H1 as [|cls' c Hc| | | | |]; subst.
      cbn [app forallb]. rewrite IH2 by reflexivity. now rewrite Hc.
  - induction s as [|c s IH]; cbn [forallb]; intros E.
    + constructor.
    + apply andb_true_iff in E as [Ec Es].
      change (c :: s) with ([c] ++ s).
      constructor; [now constructor | now apply IH].
Qed.

Lemma matches_one_or_more_class (cls : N -> bool) (s : pystr) :
  matches (one_or_more (PClass cls)) s <->
  s <> [] /\ forallb cls s = true.
Proof.
  unfold one_or_more. split.
  - intros Hm. inversion Hm as [| |a b s1 s2 H1 H2| | | |]; subst.
    inversion H1 as [|cls' c Hc| | | | |]; subst.
    apply matches_star_class in H2.
    cbn [app forallb]. split; [discriminate|].
    now rewrite Hc, H2.
  - intros [Hne E]. destruct s as [|c s]; [contradiction|].
    cbn [forallb] in E. apply andb_true_iff in E as [Ec Es].
    change (c :: s) with ([c] ++ s).
    constructor; [now constructor | now apply matches_star_class].
Qed.

Lemma matches_exactly_class (cls : N -> bool) (n : nat) (s : pystr) :
  matches (exactly n (PClass cls)) s <->
  length s = n /\ forallb cls s = true.
Proof.
  revert s. induction n as [|n IH]; intros s; cbn [exactly].
  - split.
    + intros Hm. inversion Hm. auto.
    + intros [E _]. destruct s; [constructor | discriminate].
  - split.
    + intros Hm. inversion Hm as [| |a b s1 s2 H1 H2| | | |]; subst.
      inversion H1 as [|cls' c Hc| | | | |]; subst.
      apply IH in H2 as [Hl Hf].
      cbn [app length forallb]. now rewrite Hl, Hc, Hf.
    + intros [El Ef]. destruct s as [|c s]; [discriminate|].
      cbn [length forallb] in *. apply andb_true_iff in Ef as [Ec Es].
      change (c :: s) with ([c] ++ s).
      constructor; [now constructor|]. apply IH. split; [lia | exact Es].
Qed.

Lemma matches_up_to_class (cls : N -> bool) (n : nat) (s : pystr) :
  matches (up_to n (PClass cls)) s <->
  (length s <= n)%nat /\ forallb cls s = true.
Proof.
  revert s. induction n as [|n IH]; intros s; cbn [up_to].
  - split.
    + intros Hm. inversion Hm. auto.
    + intros [E _]. destruct s; [constructor | cbn in E; lia].
  - unfold optional. split.
    + intros Hm. inversion Hm as [| | |a b s0 H1|a b s0 H1| |]; subst.
      * inversion H1; subst. cbn. split; [lia | reflexivity].
      * inversion H1 as [| |a b s1 s2 H2 H3| | | |]; subst.
        inversion H2 as [|cls' c Hc| | | | |]; subst.
        apply IH in H3 as [Hl Hf].
        cbn [app length forallb]. rewrite Hc, Hf. split; [lia | reflexivity].
    + intros [El Ef]. destruct s as [|c s].
      * apply matches_alt_l. constructor.
      * cbn [length forallb] in *. apply andb_true_iff in Ef as [Ec Es].
        apply matches_alt_r. change (c :: s) with ([c] ++ s).
        constructor; [now constructor|]. apply IH. split; [lia | exact Es].
Qed.

Lemma matches_one_char (c : N) (s : pystr) :
  matches (PClass (N.eqb c)) s <-> s = [c].
Proof.
  split.
  - intros Hm. inversion Hm as [|cls' c' Hc| | | | |]; subst.
    apply N.eqb_eq in Hc. now subst.
  - intros ->. constructor. apply N.eqb_refl.
Qed.

Lemma email_regex_matches (u : pystr) :
  matches email_regex u <->
  exists a b c : pystr,
    u = a ++ at_sign :: b ++ full_stop :: c /\
    (a <> [] /\ forallb not_at a = true) /\
    (b <> [] /\ forallb not_at b = true) /\
    (c <> [] /\ forallb not_at c = true).
Proof.
  unfold email_regex. split.
  - intros Hm.
    inversion Hm as [| |? ? a r1 Ha H1| | | |]; subst.
    inversion H1 as [| |? ? x r2 Hx H2| | | |]; subst.
    inversion H2 as [| |? ? b r3 Hb H3| | | |]; subst.
    inversion H3 as [| |? ? y c Hy Hc| | | |]; subst.
    apply matches_one_char in Hx, Hy. subst x y.
    apply matches_one_or_more_class in Ha, Hb, Hc.
    exists a, b, c. auto.
  - intros (a & b & c & -> & Ha & Hb & Hc).
    apply matches_one_or_more_class in Ha, Hb, Hc.
    change (a ++ at_sign :: b ++ full_stop :: c)
      with (a ++ [at_sign] ++ b ++ [full_stop] ++ c).
    repeat (constructor; try assumption); now apply matches_one_char.
Qed.

(** X24. The e-mail check of [validate_signup_input] passes exactly the
    strings that begin with one or more characters other than [@], one [@],
    one or more characters other than [@], a full stop and one more
    character other than [@]; what follows is not looked at, the pattern
    being matched at the start of the string only. *)
Theorem email_check_accepts (s : pystr) :
  re_match email_regex s = true <->
  exists (a b : pystr) (x : N) (rest : pystr),
    s = a ++ at_sign :: b ++ full_stop :: x :: rest /\
    a <> [] /\ b <> [] /\
    forallb not_at a = true /\ forallb not_at b = true /\ x <> at_sign.
Proof.
  rewrite re_match_spec. split.
  - intros (u & v & -> & Hm).
    apply email_regex_matches in Hm
      as (a & b & c & -> & [Ha Fa] & [Hb Fb] & [Hc Fc]).
    destruct c as [|x c]; [contradiction|].
    exists a, b, x, (c ++ v). split.
    + now rewrite <- !app_assoc, <- !app_comm_cons, <- !app_assoc.
    + cbn [forallb] in Fc. apply andb_true_iff in Fc as [Fx _].
      unfold not_at in Fx. apply negb_true_iff, N.eqb_neq in Fx. auto.
  - intros (a & b & x & rest & -> & Ha & Hb & Fa & Fb & Hx).
    exists (a ++ at_sign :: b ++ full_stop :: [x]), rest. split.
    + now rewrite <- !app_assoc, <- !app_comm_cons, <- !app_assoc.
    + apply email_regex_matches. exists a, b, [x].
      split; [reflexivity|]. repeat split; try assumption; try discriminate.
      cbn. unfold not_at. now rewrite (proj2 (N.eqb_neq x at_sign) Hx).
Qed.

Lemma email_check_accepts_witness :
  (exists (a b : pystr) (x : N) (rest : pystr),
     py "ada@example.com@evil" = a ++ at_sign :: b ++ full_stop :: x :: rest
     /\ a <> [] /\ b <> [] /\
     forallb not_at a = true /\ forallb not_at b = true /\ x <> at_sign) /\
  re_match email_regex (py "ada@example.com@evil") = true.
Proof.
  assert (Hd : exists (a b : pystr) (x : N) (rest : pystr),
            py "ada@example.com@evil"
            = a ++ at_sign :: b ++ full_stop :: x :: rest /\
            a <> [] /\ b <> [] /\
            forallb not_at a = true /\ forallb not_at b = true /\
            x <> at_sign).
  { exists (py "ada"), (py "example"), 99, (py "om@evil").
    repeat split; try reflexivity; discriminate. }
  split; [exact Hd|].
  exact (proj2 (email_check_accepts (py "ada@example.com@evil")) Hd).
Defined.

(** X25. The phone check of [validate_signup_input] passes exactly the
    strings made of an optional [+], seven to fifteen characters of the
    class [\d], and nothing more than an optional final newline. *)
Theorem phone_check_accepts (digit : N -> bool) (s : pystr) :
  re_match_dollar (phone_regex digit) s = true <->
  exists sign ds nl : pystr,
    s = sign ++ ds ++ nl /\
    (sign = [] \/ sign = [plus_sign]) /\
    (7 <= length ds <= 15)%nat /\ forallb digit ds = true /\
    (nl = [] \/ nl = [newline]).
Proof.
  rewrite re_match_dollar_spec. unfold phone_regex, between, optional.
  split.
  - intros (u & v & -> & Hm & Hv).
    inversion Hm as [| |? ? sign ds Hs Hd| | | |]; subst.
    inversion Hd as [| |? ? d1 d2 H1 H2| | | |]; subst.
    apply (matches_exactly_class digit 7) in H1 as [L1 F1].
    apply (matches_up_to_class digit 8) in H2 as [L2 F2].
    exists sign, (d1 ++ d2), v. split; [now rewrite <- app_assoc|].
    split.
    + inversion Hs as [| | |? ? ? He|? ? ? Hp| |]; subst.
      * inversion He. auto.
      * apply matches_one_char in Hp. auto.
    + rewrite length_app, forallb_app, F1, F2. cbn in L2.
      split; [lia|]. auto.
  - intros (sign & ds & nl & -> & Hs & Hl & Hf & Hv).
    exists (sign ++ ds), nl. split; [now rewrite <- app_assoc|].
    split; [|exact Hv]. constructor.
    + destruct Hs as [->| ->].
      * apply matches_alt_l. constructor.
      * apply matches_alt_r. now apply matches_one_char.
    + rewrite <- (firstn_skipn 7 ds).
      rewrite <- (firstn_skipn 7 ds), forallb_app in Hf.
      apply andb_true_iff in Hf as [F1 F2]. constructor.
      * apply (matches_exactly_class digit 7). rewrite length_firstn.
        split; [lia | exact F1].
      * apply (matches_up_to_class digit 8). rewrite length_skipn.
        split; [lia | exact F2].
Qed.

Lemma phone_check_accepts_witness :
  (exists sign ds nl : pystr,
     py "+27123456789" = sign ++ ds ++ nl /\
     (sign = [] \/ sign = [plus_sign]) /\
     (7 <= length ds <= 15)%nat /\ forallb ascii_digit ds = true /\
     (nl = [] \/ nl = [newline])) /\
  re_match_dollar (phone_regex ascii_digit) (py "+27123456789") = true.
Proof.
  assert (Hd : exists sign ds nl : pystr,
            py "+27123456789" = sign ++ ds ++ nl /\
            (sign = [] \/ sign = [plus_sign]) /\
            (7 <= length ds <= 15)%nat /\ forallb ascii_digit ds = true /\
            (nl = [] \/ nl = [newline])).
  { exists [plus_sign], (py "27123456789"), [].
    split; [reflexivity|]. split; [auto|]. split; [cbn; lia|]. auto. }
  split; [exact Hd|].
  exact (proj2 (phone_check_accepts ascii_digit (py "+27123456789")) Hd).
Defined.

Lemma str_contains_app (c : N) (a b : pystr) :
  str_contains c (a ++ b) = str_contains c a || str_contains c b.
Proof. unfold str_contains. apply existsb_app. Qed.

(** X26. Input that [validate_signup_input] accepts has both names filled
    in, a password of at least eight characters that equals its
    confirmation, and an e-mail and password that [validate_login_input]
    accepts as well: an account that can be created passes the shape check
    of the login form. *)
Theorem signup_valid_implies_login_valid (digit : N -> bool)
    (first_name last_name email phone password confirm_password : pystr) :
  fst (validate_signup_input digit first_name last_name email phone password
         confirm_password) = true ->
  first_name <> [] /\ last_name <> [] /\
  password = confirm_password /\ (8 <= length password)%nat /\
  validate_login_input email password = (true, []).
Proof.
  unfold validate_signup_input.
  destruct (str_falsy first_name) eqn:G1; [discriminate|].
  destruct (str_falsy last_name) eqn:G2; [discriminate|]. cbn [orb].
  destruct (re_match email_regex email) eqn:G3; [|discriminate].
  cbn [negb].
  destruct (re_match_dollar (phone_regex digit) phone); [|discriminate].
  cbn [negb].
  destruct (Nat.ltb_spec (length password) 8) as [|G5]; [discriminate|].
  destruct (str_eqb password confirm_password) eqn:G6; [|discriminate].
  intros _.
  split; [rewrite <- str_falsy_true; congruence|].
  split; [rewrite <- str_falsy_true; congruence|].
  split; [now apply str_eqb_eq|]. split; [exact G5|].
  apply validate_login_input_valid.
  apply not_false_iff_true. rewrite <- validate_login_input_invalid.
  apply re_match_spec in G3 as (w & v & -> & Hm).
  apply email_regex_matches in Hm as (a & b & c & -> & [Ha _] & _ & _).
  assert (Hat : str_contains at_sign
                  ((a ++ at_sign :: b ++ full_stop :: c) ++ v) = true).
  { rewrite !str_contains_app. unfold str_contains at 2. cbn [existsb].
    rewrite N.eqb_refl. cbn [orb]. now rewrite orb_true_r. }
  assert (Hdot : str_contains full_stop
                   ((a ++ at_sign :: b ++ full_stop :: c) ++ v) = true).
  { rewrite !str_contains_app.
    change (at_sign :: b ++ full_stop :: c)
      with ((at_sign :: b) ++ full_stop :: c).
    rewrite str_contains_app. unfold str_contains at 3. cbn [existsb].
    rewrite N.eqb_refl. cbn [orb]. now rewrite !orb_true_r. }
  unfold shape_invalid. rewrite Hat, Hdot.
  intros [E|[E|[E|[E|E]]]]; try discriminate.
  - apply app_eq_nil in E as [E _]. apply app_eq_nil in E as [? _].
    contradiction.
  - subst password. cbn in G5. lia.
  - lia.
Qed.

Lemma signup_valid_implies_login_valid_witness :
  fst (validate_signup_input ascii_digit (py "Ada") (py "Lovelace")
         (py "ada@example.com") (py "+27123456789") (py "correct horse")
         (py "correct horse")) = true /\
  validate_login_input (py "ada@example.com") (py "correct horse")
  = (true, []).
Proof.
  assert (Hv : fst (validate_signup_input ascii_digit (py "Ada")
                      (py "Lovelace") (py "ada@example.com")
                      (py "+27123456789") (py "correct horse")
                      (py "correct horse")) = true) by reflexivity.
  split; [exact Hv|].
  exact (proj2 (proj2 (proj2 (proj2
           (signup_valid_implies_login_valid _ _ _ _ _ _ _ Hv))))).
Defined.

(** ** screens/reset_password.py : on_send_code *)

Section SendCode.

Context `{PyLib}.

Variable send_email : pystr -> pystr -> pystr -> result bool.

(** X27. When the address typed in is blank once stripped, or no user row
    has it, [on_send_code] creates no reset code: both tables are left as
    they were and no INSERT is issued; a blank address is answered before
    any statement runs, an unknown one after the single SELECT, with the
    warning "Email not found.", which tells the address has no account;
    when that SELECT fails the connector's error leaves the slot. *)
Theorem send_code_without_account (email_text : pystr) (draw : nat -> nat)
    (now : Z) (d : Database) :
  let email := str_lower (str_strip email_text) in
  email = [] \/ select_user (users d) email = None ->
  let out := on_send_code send_email email_text draw now d in
  users (snd out) = users d /\
  password_reset_tokens (snd out) = password_reset_tokens d /\
  ((email = [] /\ out = (Ok (WarningBox (py "Error") msg_enter_email), d)) \/
   (email <> [] /\ fst out = Ok (WarningBox (py "Error") msg_email_not_found)
    /\ journal (snd out) = journal d ++ [(SelectUser email, true)]) \/
   (email <> [] /\ fst out = Raise DatabaseError
    /\ journal (snd out) = journal d ++ [(SelectUser email, false)])).
Proof.
  intros email Hno out. subst out. unfold on_send_code. fold email.
  clearbody email. destruct email as [|c email'].
  - cbn. auto.
  - destruct Hno as [Hno|Hno]; [discriminate|].
    cbn [str_falsy]. unfold bind.
    rewrite get_user_by_username_run.
    destruct (outage d (length (journal d))).
    + cbn [fst snd users password_reset_tokens journal journalled].
      split; [reflexivity|]. split; [reflexivity|].
      right. right. split; [discriminate|]. auto.
    + rewrite Hno.
      cbn [ret fst snd users password_reset_tokens journal journalled].
      split; [reflexivity|]. split; [reflexivity|].
      right. left. split; [discriminate|]. auto.
Qed.

(** X28. When the address has an account and the SELECT and the INSERT go
    through, [on_send_code] stores the reset code before it hands the
    message over: the row of the new code, for the id of that user and
    expiring five minutes from now, is in the table whatever the mailer
    does, be it that it answers false or raises. The box shown is the
    information box exactly when the mailer answers true, for a message
    to the stripped and lower-cased address whose body carries the code. *)
Theorem send_code_stores_before_mailing (email_text : pystr)
    (draw : nat -> nat) (now : Z) (d : Database) (u : user_row) :
  let email := str_lower (str_strip email_text) in
  let tok := str_upper (generate_reset_code draw 6) in
  email <> [] -> tok <> [] ->
  select_user (users d) email = Some u ->
  outage d (length (journal d)) = false ->
  outage d (S (length (journal d))) = false ->
  let out := on_send_code send_email email_text draw now d in
  fst out =
    match send_email email reset_email_subject
            (reset_email_body (first_name u) tok) with
    | Ok true => Ok (InformationBox (py "Email Sent") msg_code_sent)
    | Ok false => Ok (WarningBox (py "Error") msg_send_failed)
    | Raise e => Raise e
    end /\
  users (snd out) = users d /\
  password_reset_tokens (snd out) =
    password_reset_tokens d ++
    [{| token_id := next_token_id (password_reset_tokens d);
        token_user_id := user_id u; token := token_key tok;
        expires_at := AsDatetime (now + minutes RESET_TOKEN_EXPIRY_MINUTES);
        is_used := false |}].
Proof.
  intros email tok He Ht Hu O1 O2 out. subst out.
  unfold on_send_code, create_reset_token. fold email. fold tok.
  clearbody email tok.
  destruct email as [|c email']; [contradiction|].
  destruct tok as [|c' tok']; [contradiction|].
  cbn [str_falsy]. unfold bind.
  rewrite get_user_by_username_run, O1, Hu.
  rewrite create_password_reset_token_run.
  cbn [journal journalled outage]. rewrite length_app. cbn [length].
  rewrite Nat.add_1_r, O2. cbn [ret str_falsy].
  unfold lift, send_reset_email.
  destruct (send_email _ _ _) as [[|]|e];
    cbn [fst snd users password_reset_tokens put_tokens journalled]; auto.
Qed.

End SendCode.

Lemma send_code_without_account_witness :
  (@str_lower Sample.lib (@str_strip Sample.lib (py " nobody@example.com "))
     = []
   \/ select_user (users fresh_db)
        (@str_lower Sample.lib
           (@str_strip Sample.lib (py " nobody@example.com "))) = None) /\
  password_reset_tokens
    (snd (@on_send_code Sample.lib mailer_up (py " nobody@example.com ")
            sample_draw 0 fresh_db)) = [].
Proof.
  assert (Hno : @str_lower Sample.lib
                  (@str_strip Sample.lib (py " nobody@example.com ")) = []
                \/ select_user (users fresh_db)
                     (@str_lower Sample.lib
                        (@str_strip Sample.lib (py " nobody@example.com ")))
                   = None)
    by (right; reflexivity).
  split; [exact Hno|].
  exact (proj1 (proj2
    (@send_code_without_account Sample.lib mailer_up
       (py " nobody@example.com ") sample_draw 0 fresh_db Hno))).
Defined.

Lemma send_code_stores_before_mailing_witness :
  select_user (users fresh_db) (py "user@example.com") = Some sample_user /\
  fst (@on_send_code Sample.lib mailer_down (py " User@Example.com ")
         sample_draw 0 fresh_db)
  = Ok (WarningBox (py "Error") msg_send_failed) /\
  List.map token_user_id
    (password_reset_tokens
       (snd (@on_send_code Sample.lib mailer_down (py " User@Example.com ")
               sample_draw 0 fresh_db))) = [42%Z].
Proof.
  assert (Hu : select_user (users fresh_db)
                 (@str_lower Sample.lib
                    (@str_strip Sample.lib (py " User@Example.com ")))
               = Some sample_user) by (vm_compute; reflexivity).
  split; [exact Hu|].
  destruct (@send_code_stores_before_mailing Sample.lib mailer_down
              (py " User@Example.com ") sample_draw 0 fresh_db sample_user
              ltac:(discriminate) ltac:(discriminate) Hu eq_refl eq_refl)
    as (E & _ & T).
  split; [exact E|]. rewrite T. reflexivity.
Defined.
